(** * Aggregate-Map: the visibility state of [streamlit_app.py]

    The script is re-run from top to bottom on every interaction.  One
    re-run reads the widgets, mutates [st.session_state] and draws the
    map.  This development embeds the part that touches the session
    state: the distance function, the "Add Project" handler, the load
    block with its column check, the seeding of projects and companies,
    the project check boxes and deletions, the radius recompute and the
    bulk and single toggles, with the [try]/[except] around them.

    Conventions of the embedding:
    - a Python [float] is a real number (no rounding, no NaN);
    - a spreadsheet cell read into [Latitude] or [Longitude] is a number
      or a text; the label columns hold text; a blank cell, which pandas
      hands over as NaN, is not represented;
    - a number is taken to be a valid coordinate: the [ValueError] that
      lines 13-14 raise on some numbers (a latitude outside [-90, 90]) is
      not represented;
    - a widget is a function of its key (and default value) giving what
      the user entered in this re-run;
    - the legend and the folium map (lines 113-128 and 155-203) are
      drawing only and are left out, and so are the exceptions that the
      widget and drawing libraries raise themselves, although they are
      raised inside the same [try]: no statement below says that the
      script raises nothing there. *)

From Stdlib Require Import Reals Lra.
From stdpp Require Import gmap strings list fin_maps.

(** ** Distance function (lines 10-14) *)

Module Distance.
Local Open Scope R_scope.

(** [math.radians] *)
Definition radians (x : R) : R := x * (PI / 180).

Definition haversine (lat1 lon1 lat2 lon2 : R) : R :=
  let R := 3958.8 in
  let dlat := radians (lat2 - lat1) in
  let dlon := radians (lon2 - lon1) in
  let a := sin (dlat / 2) ^ 2
           + cos (radians lat1) * cos (radians lat2) * sin (dlon / 2) ^ 2 in
  R * 2 * asin (sqrt a).

End Distance.

(** ** Data model *)

(** A cell of a numeric column as pandas hands it to the script: a
    number or a text (a blank cell is not represented). *)
Inductive cell : Type :=
  | CNum (x : R)
  | CText (s : string).

(** A row of the "Companies" sheet and of the "Projects" sheet: the
    cells under the columns the script reads. *)
Record CompanyRow : Type := {
  Company_Location : string;
  c_Latitude : cell;
  c_Longitude : cell;
  Company_Name : string }.

Record ProjectRow : Type := {
  Project_Name : string;
  p_Latitude : cell;
  p_Longitude : cell }.

(** A sheet: its header ([df.columns]) and its rows ([df.iterrows()]).
    The cells of a column that is absent from the header are never read:
    the header check of lines 61-65 comes before every access. *)
Record DataFrame (Row : Type) : Type := {
  columns : list string;
  rows : list Row }.
Arguments columns {Row} _.
Arguments rows {Row} _.

(** The uploaded file: [pd.ExcelFile] fails on a file that is no
    workbook, [pd.read_excel] on a sheet that is not there. *)
Inductive Upload : Type :=
  | NotAWorkbook
  | Workbook (companies : option (DataFrame CompanyRow))
             (projects : option (DataFrame ProjectRow)).

(** A value of [st.session_state.project_sites]. *)
Record Site : Type := {
  lat : cell;
  lon : cell;
  visible : bool }.

(** [project_sites] is a Python dict whose iteration order is read by
    the script (first visible project): an association list in
    insertion order, with the dict's assignment and deletion. *)
Section Dict.
Context {V : Type}.

Fixpoint dict_get (k : string) (d : list (string * V)) : option V :=
  match d with
  | [] => None
  | (k', v) :: d' => if String.eqb k' k then Some v else dict_get k d'
  end.

(** [d[k] = v]: an existing key keeps its place, a new key goes last. *)
Fixpoint dict_set (k : string) (v : V) (d : list (string * V))
  : list (string * V) :=
  match d with
  | [] => [(k, v)]
  | (k', v') :: d' =>
      if String.eqb k' k then (k', v) :: d' else (k', v') :: dict_set k v d'
  end.

(** [del d[k]] for a key that is present. *)
Fixpoint dict_del (k : string) (d : list (string * V)) : list (string * V) :=
  match d with
  | [] => []
  | (k', v') :: d' => if String.eqb k' k then d' else (k', v') :: dict_del k d'
  end.

(** [d[k]] changed in place by [f], for a key that is present. *)
Fixpoint dict_update (f : V → V) (k : string) (d : list (string * V))
  : list (string * V) :=
  match d with
  | [] => []
  | (k', v') :: d' =>
      if String.eqb k' k then (k', f v') :: d' else (k', v') :: dict_update f k d'
  end.

Definition dict_keys (d : list (string * V)) : list string := map fst d.

(** What a dict is: no key twice. *)
Definition dict_wf (d : list (string * V)) : Prop := NoDup (dict_keys d).
End Dict.

Record SessionState : Type := {
  competitor_visibility : gmap string bool;
  project_sites : list (string * Site);
  all_competitors : gset string;
  last_radius : R }.

(** Lines 17-20: the state of a fresh session. *)
Definition initial_state : SessionState :=
  {| competitor_visibility := ∅;
     project_sites := [];
     all_competitors := ∅;
     last_radius := (-1)%R |}.

Definition set_competitor_visibility (f : gmap string bool → gmap string bool)
    (st : SessionState) : SessionState :=
  {| competitor_visibility := f (competitor_visibility st);
     project_sites := project_sites st;
     all_competitors := all_competitors st;
     last_radius := last_radius st |}.

Definition set_project_sites (f : list (string * Site) → list (string * Site))
    (st : SessionState) : SessionState :=
  {| competitor_visibility := competitor_visibility st;
     project_sites := f (project_sites st);
     all_competitors := all_competitors st;
     last_radius := last_radius st |}.

Definition set_all_competitors (f : gset string → gset string)
    (st : SessionState) : SessionState :=
  {| competitor_visibility := competitor_visibility st;
     project_sites := project_sites st;
     all_competitors := f (all_competitors st);
     last_radius := last_radius st |}.

Definition set_last_radius (r : R) (st : SessionState) : SessionState :=
  {| competitor_visibility := competitor_visibility st;
     project_sites := project_sites st;
     all_competitors := all_competitors st;
     last_radius := r |}.

(** ** Widgets *)

Inductive Mode : Type :=
  | AllCompaniesWithRadius
  | CompaniesWithinRadiusOfProject.

(** The user's input of one re-run.  [button] is asked by key, or by
    label where the script gives no key (labels are written without
    their pictograms); [checkbox] by key and default value. *)
Record Widgets : Type := {
  uploaded_file : option Upload;
  new_name : string;
  new_lat : R;
  new_lon : R;
  mode : Mode;
  radius_manual : R;
  button : string → bool;
  checkbox : string → bool → bool }.

(** ** Effects: session state, messages, exceptions *)

Inductive exn : Type :=
  | TypeError
  | WorksheetNotFound (sheet : string)
  | BadFile.

Inductive message : Type :=
  | SuccessProjectAdded (name : string)
  | ErrorCompaniesColumns
  | ErrorProjectsColumns
  | ErrorLoadingFile (e : exn)
  | InfoPleaseUpload.

Inductive outcome (A : Type) : Type :=
  | Returns (a : A)
  | Raises (e : exn).
Arguments Returns {A} _.
Arguments Raises {A} _.

(** A piece of script: from the session state to the state it leaves,
    the messages it shows and how it ends.  A raised exception keeps the
    state reached so far, as Python does. *)
Definition M (A : Type) : Type :=
  SessionState → SessionState * list message * outcome A.

Definition ret {A} (a : A) : M A := λ st, (st, [], Returns a).

Definition bind {A B} (m : M A) (k : A → M B) : M B :=
  λ st,
    match m st with
    | (st1, out1, Returns a) =>
        match k a st1 with
        | (st2, out2, r) => (st2, out1 ++ out2, r)
        end
    | (st1, out1, Raises e) => (st1, out1, Raises e)
    end.

Definition raise {A} (e : exn) : M A := λ st, (st, [], Raises e).

Definition show (msg : message) : M unit := λ st, (st, [msg], Returns tt).

Definition gets {A} (f : SessionState → A) : M A := λ st, (st, [], Returns (f st)).

Definition modify (f : SessionState → SessionState) : M unit :=
  λ st, (f st, [], Returns tt).

(** [try: m except Exception as e: h e] *)
Definition try_except (m : M unit) (h : exn → M unit) : M unit :=
  λ st,
    match m st with
    | (st1, out1, Returns a) => (st1, out1, Returns a)
    | (st1, out1, Raises e) =>
        match h e st1 with
        | (st2, out2, r) => (st2, out1 ++ out2, r)
        end
    end.

Notation "'let*' x := m 'in' k" := (bind m (λ x, k))
  (at level 10, x name, m at level 100, k at level 200).
Notation "m ;;; k" := (bind m (λ _, k))
  (at level 100, k at level 200, right associativity).

Fixpoint for_each {A} (l : list A) (body : A → M unit) : M unit :=
  match l with
  | [] => ret tt
  | x :: l' => body x ;;; for_each l' body
  end.

Fixpoint map_M {A B} (f : A → M B) (l : list A) : M (list B) :=
  match l with
  | [] => ret []
  | x :: l' => let* y := f x in let* ys := map_M f l' in ret (y :: ys)
  end.

Definition state_of {A} (r : SessionState * list message * outcome A) : SessionState :=
  r.1.1.
Definition shown_of {A} (r : SessionState * list message * outcome A) : list message :=
  r.1.2.
Definition outcome_of {A} (r : SessionState * list message * outcome A) : outcome A :=
  r.2.

(** ** The script *)

(** [x <= y] and [x != y] on floats. *)
Definition Rleb (x y : R) : bool := if Rle_dec x y then true else false.
Definition Rneqb (x y : R) : bool := if Req_dec_T x y then false else true.

(** [haversine] as Python runs it on cells: arithmetic on a text raises
    [TypeError].  Numbers are valid coordinates here: the domain error
    of [sqrt] and [asin] on other numbers is not represented. *)
Definition haversine_py (lat1 lon1 lat2 lon2 : cell) : M R :=
  match lat1, lon1, lat2, lon2 with
  | CNum a, CNum b, CNum c, CNum d => ret (Distance.haversine a b c d)
  | _, _, _, _ => raise TypeError
  end.

(** Lines 34-36. *)
Definition add_project (w : Widgets) : M unit :=
  if button w "Add Project" then
    modify (set_project_sites
      (dict_set (new_name w)
         {| lat := CNum (new_lat w); lon := CNum (new_lon w); visible := true |})) ;;;
    show (SuccessProjectAdded (new_name w))
  else ret tt.

(** Lines 57-59. *)
Definition ExcelFile (f : Upload)
  : M (option (DataFrame CompanyRow) * option (DataFrame ProjectRow)) :=
  match f with
  | NotAWorkbook => raise BadFile
  | Workbook companies projects => ret (companies, projects)
  end.

Definition read_excel {Row} (sheet : option (DataFrame Row)) (name : string)
  : M (DataFrame Row) :=
  match sheet with
  | Some df => ret df
  | None => raise (WorksheetNotFound name)
  end.

(** Lines 61-64: [all(col in df.columns for col in required)]. *)
Definition required_cols : list string :=
  ["Company Location"; "Latitude"; "Longitude"; "Company Name"].
Definition required_project_cols : list string :=
  ["Project Name"; "Latitude"; "Longitude"].

Definition has_columns (required cols : list string) : bool :=
  forallb (λ col, existsb (String.eqb col) cols) required.

(** Lines 67-71. *)
Definition site_of_row (row : ProjectRow) : Site :=
  {| lat := p_Latitude row; lon := p_Longitude row; visible := true |}.

Definition seed_step (d : list (string * Site)) (row : ProjectRow)
  : list (string * Site) :=
  dict_set (Project_Name row) (site_of_row row) d.

Definition seed_projects (projects : list ProjectRow)
    (sites : list (string * Site)) : list (string * Site) :=
  match sites with
  | [] => foldl seed_step [] projects
  | _ :: _ => sites
  end.

(** [project_sites[name]["visible"] = b] *)
Definition with_visible (b : bool) (s : Site) : Site :=
  {| lat := lat s; lon := lon s; visible := b |}.

Definition set_visible (name : string) (b : bool)
    (sites : list (string * Site)) : list (string * Site) :=
  dict_update (with_visible b) name sites.

(** Lines 74-82: a check box and a delete button per project. *)
Definition manage_project_sites (w : Widgets)
    (sites : list (string * Site)) : list (string * Site) :=
  let checked :=
    foldl (λ d item, set_visible item.1
                       (checkbox w ("proj_" +:+ item.1) (visible item.2)) d)
          sites sites in
  let to_delete :=
    map fst (List.filter (λ item, button w ("remove_" +:+ item.1)) sites) in
  foldl (λ d name, dict_del name d) checked to_delete.

(** Lines 84-88. *)
Definition seed_company (st : SessionState) (row : CompanyRow) : SessionState :=
  let cname := Company_Location row in
  let st1 := set_all_competitors (λ s, {[cname]} ∪ s) st in
  match competitor_visibility st1 !! cname with
  | None => set_competitor_visibility <[cname := true]> st1
  | Some _ => st1
  end.

Definition seed_companies (companies : list CompanyRow)
    (st : SessionState) : SessionState :=
  foldl seed_company st companies.

(** Line 91. *)
Definition visible_projects (sites : list (string * Site)) : list (string * Site) :=
  List.filter (λ item, visible item.2) sites.

(** Lines 93-94: the reference project, if the mode asks for one and a
    project is visible.  The dict has the name once, so the entry found
    by the name at lines 95-96 is the entry of the list. *)
Definition selected_project (m : Mode) (sites : list (string * Site))
  : option (string * Site) :=
  match m, visible_projects sites with
  | CompaniesWithinRadiusOfProject, item :: _ => Some item
  | _, _ => None
  end.

(** Lines 102-108, with the column [Distance (mi)] beside each row. *)
Definition recompute (radius_miles : R) (proj_lat proj_lon : cell)
    (companies : list (CompanyRow * R)) : M unit :=
  for_each companies (λ rd,
    modify (set_competitor_visibility
              <[Company_Location rd.1 := Rleb rd.2 radius_miles]>)) ;;;
  let* sites := gets project_sites in
  for_each sites (λ item,
    let* dist := haversine_py proj_lat proj_lon (lat item.2) (lon item.2) in
    modify (set_project_sites (set_visible item.1 (Rleb dist radius_miles)))) ;;;
  modify (set_last_radius radius_miles).

(** Lines 90-108.  Returns [selected_project]. *)
Definition radius_block (w : Widgets) (companies : list CompanyRow)
  : M (option string) :=
  let* sites := gets project_sites in
  match selected_project (mode w) sites with
  | Some (name, site) =>
      let proj_lat := lat site in
      let proj_lon := lon site in
      let* distances :=
        map_M (λ row, haversine_py proj_lat proj_lon
                        (c_Latitude row) (c_Longitude row)) companies in
      let* last := gets last_radius in
      (if Rneqb (radius_manual w) last
       then recompute (radius_manual w) proj_lat proj_lon (combine companies distances)
       else ret tt) ;;;
      ret (Some name)
  | None => ret None
  end.

(** [bool(competitor_visibility.get(c, True))] *)
Definition get_visibility (vis : gmap string bool) (c : string) : bool :=
  default true (vis !! c).

(** Lines 133-136: the global button. *)
Definition global_all_on (st : SessionState) : bool :=
  forallb (get_visibility (competitor_visibility st)) (elements (all_competitors st)).

Definition set_all (members : list string) (b : bool)
    (vis : gmap string bool) : gmap string bool :=
  foldl (λ m c, <[c := b]> m) vis members.

Definition global_toggle (w : Widgets) (st : SessionState) : SessionState :=
  let on := global_all_on st in
  if button w (if on then "Deselect All" else "Select All")
  then set_competitor_visibility (set_all (elements (all_competitors st)) (negb on)) st
  else st.

(** Line 138: [groupby] yields the groups by ascending key, the rows of
    a group in sheet order. *)
Fixpoint insert_key (k : string) (keys : list string) : list string :=
  match keys with
  | [] => [k]
  | k' :: keys' =>
      match String.compare k k' with
      | Lt => k :: keys
      | Eq => keys
      | Gt => k' :: insert_key k keys'
      end
  end.

Definition groupby_Company_Name (companies : list CompanyRow)
  : list (string * list CompanyRow) :=
  map (λ k, (k, List.filter (λ row, String.eqb (Company_Name row) k) companies))
      (foldr insert_key [] (map Company_Name companies)).

(** Lines 141-147: the button of one group. *)
Definition all_checked (group : list CompanyRow) (vis : gmap string bool) : bool :=
  forallb (λ row, get_visibility vis (Company_Location row)) group.

Definition group_toggle (w : Widgets) (company : string) (group : list CompanyRow)
    (vis : gmap string bool) : gmap string bool :=
  let checked := all_checked group vis in
  let label := if checked then "Deselect All" else "Select All" in
  if button w (label +:+ " (" +:+ company +:+ ")")
  then set_all (map Company_Location group) (negb checked) vis
  else vis.

(** Lines 149-153: the check box of one location. *)
Definition location_checkbox (w : Widgets) (vis : gmap string bool)
    (row : CompanyRow) : gmap string bool :=
  let cname := Company_Location row in
  let val := get_visibility vis cname in
  <[cname := checkbox w ("toggle_" +:+ cname) val]> vis.

(** Lines 139-153. *)
Definition group_block (w : Widgets) (vis : gmap string bool)
    (g : string * list CompanyRow) : gmap string bool :=
  foldl (location_checkbox w) (group_toggle w g.1 g.2 vis) g.2.

Definition company_toggles (w : Widgets) (companies : list CompanyRow)
    (vis : gmap string bool) : gmap string bool :=
  foldl (group_block w) vis (groupby_Company_Name companies).

(** Lines 133-153: the toggles of the right-hand column. *)
Definition toggles (w : Widgets) (companies : list CompanyRow) : M unit :=
  modify (global_toggle w) ;;;
  modify (set_competitor_visibility (company_toggles w companies)).

(** Lines 67-108 and 133-153: the branch taken when both headers are
    complete, without its drawing (lines 110-128 and 155-203), which
    writes no session state but may raise. *)
Definition process_sheets (w : Widgets) (companies : list CompanyRow)
    (projects : list ProjectRow) : M unit :=
  modify (set_project_sites (seed_projects projects)) ;;;
  modify (set_project_sites (manage_project_sites w)) ;;;
  modify (seed_companies companies) ;;;
  let* selected := radius_block w companies in
  toggles w companies.

(** Lines 57-203, the body of the [try], without the drawing. *)
Definition load_body (w : Widgets) (f : Upload) : M unit :=
  let* xls := ExcelFile f in
  let* companies_df := read_excel xls.1 "Companies" in
  let* projects_df := read_excel xls.2 "Projects" in
  if negb (has_columns required_cols (columns companies_df)) then
    show ErrorCompaniesColumns
  else if negb (has_columns required_project_cols (columns projects_df)) then
    show ErrorProjectsColumns
  else process_sheets w (rows companies_df) (rows projects_df).

(** Lines 55-208. *)
Definition load_data (w : Widgets) : M unit :=
  match uploaded_file w with
  | Some f => try_except (load_body w f) (λ e, show (ErrorLoadingFile e))
  | None => show InfoPleaseUpload
  end.

(** One re-run of the script. *)
Definition rerun (w : Widgets) : M unit :=
  add_project w ;;; load_data w.

(** Lines 110-111: the rows that are drawn. *)
Definition visible_competitors (vis : gmap string bool) : list string :=
  map fst (List.filter (λ kv, kv.2) (map_to_list vis)).

Definition visible_df (companies : list CompanyRow) (vis : gmap string bool)
  : list CompanyRow :=
  List.filter
    (λ row, bool_decide (Company_Location row ∈ visible_competitors vis))
    companies.

(** Lines 113-117: [unique()] keeps the first occurrence of each name,
    in sheet order; a name gets the palette slot [i % colormap.N] of its
    rank [i].  The palette itself is matplotlib's: a colour is its slot. *)
Fixpoint unique (names : list string) : list string :=
  match names with
  | [] => []
  | n :: names' => n :: List.filter (λ m, negb (String.eqb m n)) (unique names')
  end.

Definition company_colors (colormap_N : nat) (companies : list CompanyRow)
  : list (string * nat) :=
  imap (λ i name, (name, i mod colormap_N)) (unique (map Company_Name companies)).

(** ** Vocabulary of the statements *)

(** A cell that holds a number. *)
Definition number_in (c : cell) : option R :=
  match c with
  | CNum x => Some x
  | CText _ => None
  end.

Definition numeric_row (row : CompanyRow) : Prop :=
  is_Some (number_in (c_Latitude row)) ∧ is_Some (number_in (c_Longitude row)).

Definition numeric_site (s : Site) : Prop :=
  is_Some (number_in (lat s)) ∧ is_Some (number_in (lon s)).

(** The distance column of line 97 for rows that hold numbers. *)
Definition distance_from (plat plon : R) (la lo : cell) : R :=
  match la, lo with
  | CNum a, CNum b => Distance.haversine plat plon a b
  | _, _ => 0%R
  end.

(** The two loops of the recompute (lines 102-107) on rows and sites
    that hold numbers, as folds. *)
Definition flag_companies (radius_miles : R) (companies : list (CompanyRow * R))
    (vis : gmap string bool) : gmap string bool :=
  foldl (λ m rd, <[Company_Location rd.1 := Rleb rd.2 radius_miles]> m)
        vis companies.

Definition flag_projects (radius_miles plat plon : R)
    (items sites : list (string * Site)) : list (string * Site) :=
  foldl (λ d item,
           set_visible item.1
             (Rleb (distance_from plat plon (lat item.2) (lon item.2)) radius_miles) d)
        sites items.

(** A piece of script that relates the state it starts from to the
    state it leaves, however it ends. *)
Definition preserves (P : relation SessionState) {A} (m : M A) : Prop :=
  ∀ st, P st (state_of (m st)).

(** A piece of script that neither changes the state nor shows anything. *)
Definition silent {A} (m : M A) : Prop :=
  ∀ st, state_of (m st) = st ∧ shown_of (m st) = [].

(** A piece of script that shows nothing. *)
Definition quiet {A} (m : M A) : Prop := ∀ st, shown_of (m st) = [].

(** No company entry is lost. *)
Definition keeps_companies (st st' : SessionState) : Prop :=
  dom (competitor_visibility st) ⊆ dom (competitor_visibility st').

(** The projects keep their names and their order. *)
Definition keeps_project_names (st st' : SessionState) : Prop :=
  dict_keys (project_sites st) = dict_keys (project_sites st').

(** The state in which the radius block starts: lines 67-88 applied. *)
Definition seeded (w : Widgets) (companies : list CompanyRow)
    (projects : list ProjectRow) (st : SessionState) : SessionState :=
  seed_companies companies
    (set_project_sites (manage_project_sites w)
       (set_project_sites (seed_projects projects) st)).

(** [project_sites] stays a dict. *)
Definition keeps_wf (st st' : SessionState) : Prop :=
  dict_wf (project_sites st) → dict_wf (project_sites st').

(** A piece of script that establishes [Q] whenever it returns. *)
Definition on_return (Q : SessionState → Prop) {A} (m : M A) : Prop :=
  ∀ st st' out a, m st = (st', out, Returns a) → Q st'.

(** Every project of [st'] was in [st], at the same coordinates. *)
Definition keeps_coordinates (st st' : SessionState) : Prop :=
  dict_wf (project_sites st) →
  dict_wf (project_sites st')
  ∧ ∀ k s', dict_get k (project_sites st') = Some s' →
            ∃ s, dict_get k (project_sites st) = Some s
                 ∧ lat s' = lat s ∧ lon s' = lon s.

(** Every location of [all_competitors] has a flag. *)
Definition competitors_flagged (st : SessionState) : Prop :=
  all_competitors st ⊆ dom (competitor_visibility st).

Definition keeps_flagged (st st' : SessionState) : Prop :=
  competitors_flagged st → competitors_flagged st'.

(** No location leaves [all_competitors]. *)
Definition keeps_competitors (st st' : SessionState) : Prop :=
  all_competitors st ⊆ all_competitors st'.

(** The radius block leaves [last_radius] alone. *)
Definition keeps_last_radius (st st' : SessionState) : Prop :=
  last_radius st = last_radius st'.

(** ** Example inputs

    The example of the specification: project P at (0,0), companies A at
    (0,0), B at (0,0.1) and C at (1,0), radius 10; and a row whose
    latitude is a text. *)

Definition row_A : CompanyRow :=
  {| Company_Location := "A"; c_Latitude := CNum 0; c_Longitude := CNum 0;
     Company_Name := "Acme" |}.
Definition row_B : CompanyRow :=
  {| Company_Location := "B"; c_Latitude := CNum 0; c_Longitude := CNum 0.1;
     Company_Name := "Acme" |}.
Definition row_C : CompanyRow :=
  {| Company_Location := "C"; c_Latitude := CNum 1; c_Longitude := CNum 0;
     Company_Name := "Zenith" |}.
Definition row_text : CompanyRow :=
  {| Company_Location := "D"; c_Latitude := CText "north"; c_Longitude := CNum 0;
     Company_Name := "Acme" |}.

Definition project_P : ProjectRow :=
  {| Project_Name := "P"; p_Latitude := CNum 0; p_Longitude := CNum 0 |}.

Definition site_P (shown : bool) : Site :=
  {| lat := CNum 0; lon := CNum 0; visible := shown |}.

Definition companies_sheet (header : list string) (companies : list CompanyRow)
  : DataFrame CompanyRow :=
  {| columns := header; rows := companies |}.

Definition projects_sheet : DataFrame ProjectRow :=
  {| columns := required_project_cols; rows := [project_P] |}.

Definition example_workbook (header : list string) (companies : list CompanyRow)
  : Upload :=
  Workbook (Some (companies_sheet header companies)) (Some projects_sheet).

(** Nothing pressed, every check box left as it is, name "X" at
    (40, -75) typed into the side bar. *)
Definition example_widgets (file : option Upload) (radius : R) : Widgets :=
  {| uploaded_file := file;
     new_name := "X"; new_lat := 40; new_lon := (-75);
     mode := CompaniesWithinRadiusOfProject;
     radius_manual := radius;
     button := λ _, false;
     checkbox := λ _ value, value |}.

Definition pressing (label : string) (w : Widgets) : Widgets :=
  {| uploaded_file := uploaded_file w;
     new_name := new_name w; new_lat := new_lat w; new_lon := new_lon w;
     mode := mode w;
     radius_manual := radius_manual w;
     button := λ l, String.eqb l label || button w l;
     checkbox := checkbox w |}.

Definition in_mode (m : Mode) (w : Widgets) : Widgets :=
  {| uploaded_file := uploaded_file w;
     new_name := new_name w; new_lat := new_lat w; new_lon := new_lon w;
     mode := m;
     radius_manual := radius_manual w;
     button := button w;
     checkbox := checkbox w |}.

(** A workbook with complete headers and a text in a latitude, uploaded
    in radius mode. *)
Definition text_workbook : Upload := example_workbook required_cols [row_text].
Definition text_widgets : Widgets := example_widgets (Some text_workbook) 10.

Definition state_with_P (shown : bool) (vis : gmap string bool) (last : R)
  : SessionState :=
  {| competitor_visibility := vis;
     project_sites := [("P", site_P shown)];
     all_competitors := dom vis;
     last_radius := last |}.

(** * Properties *)

(** ** The distance function *)

Section DistanceFacts.
Import Distance.
Local Open Scope R_scope.

Lemma radians_opp x y : radians (x - y) = - radians (y - x).
Proof. unfold radians. lra. Qed.

Lemma sin_half_sq_opp x : sin (- x / 2) ^ 2 = sin (x / 2) ^ 2.
Proof.
  replace (- x / 2) with (- (x / 2)) by lra.
  rewrite sin_neg. ring.
Qed.

Lemma haversine_sym lat1 lon1 lat2 lon2 :
  haversine lat1 lon1 lat2 lon2 = haversine lat2 lon2 lat1 lon1.
Proof.
  unfold haversine; cbv zeta.
  rewrite (radians_opp lat1 lat2), (radians_opp lon1 lon2).
  rewrite !sin_half_sq_opp.
  rewrite (Rmult_comm (cos (radians lat2)) (cos (radians lat1))).
  reflexivity.
Qed.

Lemma haversine_refl lat1 lon1 : haversine lat1 lon1 lat1 lon1 = 0.
Proof.
  unfold haversine, radians; cbv zeta.
  replace ((lat1 - lat1) * (PI / 180) / 2) with 0 by lra.
  replace ((lon1 - lon1) * (PI / 180) / 2) with 0 by lra.
  rewrite sin_0.
  replace (0 ^ 2 + cos (lat1 * (PI / 180)) * cos (lat1 * (PI / 180)) * 0 ^ 2)
    with 0 by ring.
  rewrite sqrt_0, asin_0. ring.
Qed.

(** C9: the distance between two points does not depend on the order in
  which they are given, and the distance from a point to itself is 0. *)
Theorem haversine_symmetric_and_zero :
  ∀ lat1 lon1 lat2 lon2 : R,
    haversine lat1 lon1 lat2 lon2 = haversine lat2 lon2 lat1 lon1
    ∧ haversine lat1 lon1 lat1 lon1 = 0.
Proof. intros. split; [apply haversine_sym | apply haversine_refl]. Qed.
End DistanceFacts.

(** ** The ordered dict *)

Section DictFacts.
Context {V : Type}.
Implicit Types (d : list (string * V)) (k : string) (v : V).

Lemma dict_get_set_eq k v d : dict_get k (dict_set k v d) = Some v.
Proof.
  induction d as [|[k' v'] d IH]; simpl.
  - by rewrite String.eqb_refl.
  - destruct (String.eqb_spec k' k) as [->|Hne]; simpl.
    + by rewrite String.eqb_refl.
    + by destruct (String.eqb_spec k' k).
Qed.

Lemma dict_get_set_ne k k' v d :
  k ≠ k' → dict_get k' (dict_set k v d) = dict_get k' d.
Proof.
  intros Hne. induction d as [|[k0 v0] d IH]; simpl.
  - by destruct (String.eqb_spec k k').
  - destruct (String.eqb_spec k0 k) as [->|Hk]; simpl.
    + by destruct (String.eqb_spec k k').
    + by rewrite IH.
Qed.

Lemma dict_get_None k d : dict_get k d = None ↔ k ∉ dict_keys d.
Proof.
  induction d as [|[k' v'] d IH]; simpl.
  - split; [intros _; apply not_elem_of_nil | done].
  - rewrite not_elem_of_cons.
    destruct (String.eqb_spec k' k) as [->|Hne].
    + split; [done | intros [? _]; done].
    + rewrite IH. split; [intros ?; split; congruence | intros [_ ?]; done].
Qed.

Lemma dict_get_Some_elem k v d : dict_get k d = Some v → (k, v) ∈ d.
Proof.
  induction d as [|[k' v'] d IH]; simpl; [done|].
  destruct (String.eqb_spec k' k) as [->|Hne].
  - intros [= ->]. apply list_elem_of_here.
  - intros H. apply list_elem_of_further. auto.
Qed.

Lemma dict_get_elem k v d : dict_wf d → (k, v) ∈ d → dict_get k d = Some v.
Proof.
  unfold dict_wf.
  induction d as [|[k' v'] d IH]; simpl; intros Hwf Hin.
  - by apply elem_of_nil in Hin.
  - apply NoDup_cons in Hwf as [Hk' Hwf].
    apply elem_of_cons in Hin as [[= -> ->]|Hin].
    + by rewrite String.eqb_refl.
    + destruct (String.eqb_spec k' k) as [->|Hne]; [|by apply IH].
      exfalso. apply Hk'. apply list_elem_of_fmap. by exists (k, v).
Qed.

Lemma dict_keys_set k v d :
  dict_keys (dict_set k v d)
  = if bool_decide (k ∈ dict_keys d) then dict_keys d else dict_keys d ++ [k].
Proof.
  induction d as [|[k' v'] d IH]; simpl; [done|].
  destruct (String.eqb_spec k' k) as [->|Hne]; simpl.
  - rewrite bool_decide_eq_true_2; [done | apply list_elem_of_here].
  - rewrite IH. case_bool_decide as Hin.
    + rewrite bool_decide_eq_true_2; [done | by apply list_elem_of_further].
    + rewrite bool_decide_eq_false_2; [done|].
      rewrite not_elem_of_cons. naive_solver.
Qed.

Lemma dict_wf_set k v d : dict_wf d → dict_wf (dict_set k v d).
Proof.
  unfold dict_wf. intros Hwf. rewrite dict_keys_set.
  case_bool_decide as Hin; [done|].
  apply NoDup_app. split_and!; [done | | apply NoDup_singleton].
  intros x Hx Hx'. apply list_elem_of_singleton in Hx' as ->. done.
Qed.

Lemma dict_keys_update (f : V → V) k d :
  dict_keys (dict_update f k d) = dict_keys d.
Proof.
  induction d as [|[k' v'] d IH]; simpl; [done|].
  destruct (String.eqb k' k); simpl; [done | by rewrite IH].
Qed.

Lemma dict_get_update (f : V → V) k k' d :
  dict_get k' (dict_update f k d)
  = if bool_decide (k = k') then f <$> dict_get k' d else dict_get k' d.
Proof.
  induction d as [|[k0 v0] d IH]; simpl.
  - by case_bool_decide.
  - destruct (String.eqb_spec k0 k) as [->|Hk]; simpl.
    + destruct (String.eqb_spec k k') as [->|Hk'].
      * by rewrite bool_decide_eq_true_2.
      * by rewrite bool_decide_eq_false_2.
    + destruct (String.eqb_spec k0 k') as [->|Hk'].
      * by rewrite bool_decide_eq_false_2.
      * apply IH.
Qed.

Lemma dict_keys_del k d : dict_keys (dict_del k d) ⊆ dict_keys d.
Proof.
  induction d as [|[k' v'] d IH]; simpl; [done|].
  destruct (String.eqb k' k); simpl.
  - intros x Hx. by apply list_elem_of_further.
  - intros x [->|Hx]%elem_of_cons;
      [apply list_elem_of_here | apply list_elem_of_further, IH, Hx].
Qed.

Lemma dict_wf_del k d : dict_wf d → dict_wf (dict_del k d).
Proof.
  unfold dict_wf.
  induction d as [|[k' v'] d IH]; simpl; [done|].
  intros [Hk' Hwf]%NoDup_cons.
  destruct (String.eqb k' k); simpl; [done|].
  apply NoDup_cons. split; [|by apply IH].
  intros Hin. apply Hk'. by apply (dict_keys_del k d).
Qed.

End DictFacts.

(** ** Adding a project by hand *)

Lemma add_project_pressed w st :
  button w "Add Project" = true →
  add_project w st
  = (set_project_sites
       (dict_set (new_name w)
          {| lat := CNum (new_lat w); lon := CNum (new_lon w); visible := true |}) st,
     [SuccessProjectAdded (new_name w)], Returns tt).
Proof. intros Hb. unfold add_project. by rewrite Hb. Qed.

(** C10: pressing "Add Project" stores [{lat, lon, visible: True}] under
    the typed name, whatever the name is and whether or not it is there
    already: the entry is then found under the name, an existing name
    keeps its place and a new one goes last, the other projects and the
    rest of the session state are untouched. *)
Theorem add_project_sets_entry :
  ∀ (w : Widgets) (st : SessionState),
    button w "Add Project" = true →
    let st' := state_of (add_project w st) in
    outcome_of (add_project w st) = Returns tt
    ∧ dict_get (new_name w) (project_sites st')
      = Some {| lat := CNum (new_lat w); lon := CNum (new_lon w); visible := true |}
    ∧ (∀ k, k ≠ new_name w →
         dict_get k (project_sites st') = dict_get k (project_sites st))
    ∧ dict_keys (project_sites st')
      = (if bool_decide (new_name w ∈ dict_keys (project_sites st))
         then dict_keys (project_sites st)
         else dict_keys (project_sites st) ++ [new_name w])
    ∧ competitor_visibility st' = competitor_visibility st
    ∧ all_competitors st' = all_competitors st
    ∧ last_radius st' = last_radius st.
Proof.
  intros w st Hb. rewrite (add_project_pressed w st Hb). cbn.
  split_and!; try done.
  - apply dict_get_set_eq.
  - intros k Hk. by apply dict_get_set_ne.
  - apply dict_keys_set.
Qed.

(** ** Seeding the projects on the first load *)

Lemma seed_fold_get (projects : list ProjectRow) d k :
  dict_get k (foldl seed_step d projects)
  = match find (λ row, String.eqb (Project_Name row) k) (rev projects) with
    | Some row => Some (site_of_row row)
    | None => dict_get k d
    end.
Proof.
  induction projects as [|row projects IH] using rev_ind; [done|].
  rewrite foldl_snoc, rev_unit. simpl. unfold seed_step at 1.
  destruct (String.eqb_spec (Project_Name row) k) as [<-|Hne].
  - apply dict_get_set_eq.
  - rewrite dict_get_set_ne by done. apply IH.
Qed.

Lemma seed_fold_wf (projects : list ProjectRow) d :
  dict_wf d → dict_wf (foldl seed_step d projects).
Proof.
  revert d. induction projects as [|row projects IH]; simpl; [done|].
  intros d Hwf. apply IH. by apply dict_wf_set.
Qed.

Lemma seed_projects_wf projects sites :
  dict_wf sites → dict_wf (seed_projects projects sites).
Proof.
  destruct sites; simpl; [|done].
  intros _. apply seed_fold_wf. apply NoDup_nil_2.
Qed.



Lemma seed_fold_present (projects : list ProjectRow) d row :
  row ∈ projects →
  ∃ row', row' ∈ projects ∧ Project_Name row' = Project_Name row
          ∧ dict_get (Project_Name row) (foldl seed_step d projects)
            = Some (site_of_row row').
Proof.
  intros Hin. rewrite seed_fold_get.
  destruct (find _ (rev projects)) as [row'|] eqn:Hfind.
  - apply find_some in Hfind as [Hin' Heq].
    exists row'. split_and!; [|by apply String.eqb_eq|done].
    apply list_elem_of_In. by apply in_rev.
  - exfalso.
    pose proof (find_none _ _ Hfind row) as Hnone. simpl in Hnone.
    rewrite String.eqb_refl in Hnone.
    discriminate Hnone. apply in_rev. rewrite rev_involutive.
    by apply list_elem_of_In.
Qed.



(** ** Running pieces of script *)

Lemma run_bind {A B} (m : M A) (k : A → M B) st :
  bind m k st
  = match m st with
    | (st1, out1, Returns a) =>
        (state_of (k a st1), out1 ++ shown_of (k a st1), outcome_of (k a st1))
    | (st1, out1, Raises e) => (st1, out1, Raises e)
    end.
Proof.
  unfold bind. destruct (m st) as [[st1 out1] [a|e]]; [|done].
  by destruct (k a st1) as [[st2 out2] r].
Qed.

Lemma run_eta {A} (r : SessionState * list message * outcome A) :
  (state_of r, shown_of r, outcome_of r) = r.
Proof. by destruct r as [[? ?] ?]. Qed.

Lemma run_modify_then {B} (f : SessionState → SessionState) (k : M B) st :
  (modify f ;;; k) st = k (f st).
Proof. rewrite run_bind. cbn. apply run_eta. Qed.

Lemma run_gets_then {A B} (f : SessionState → A) (k : A → M B) st :
  bind (gets f) k st = k (f st) st.
Proof. rewrite run_bind. cbn. apply run_eta. Qed.

Lemma run_ret_then {A B} (a : A) (k : A → M B) st :
  bind (ret a) k st = k a st.
Proof. rewrite run_bind. cbn. apply run_eta. Qed.

Lemma run_for_each_modify {A} (f : A → SessionState → SessionState) l st :
  for_each l (λ x, modify (f x)) st = (foldl (λ s x, f x s) st l, [], Returns tt).
Proof.
  revert st. induction l as [|x l IH]; intros st; simpl; [done|].
  rewrite run_modify_then. apply IH.
Qed.

Lemma try_except_state (m : M unit) st :
  state_of (try_except m (λ e, show (ErrorLoadingFile e)) st) = state_of (m st).
Proof. unfold try_except. by destruct (m st) as [[st1 out1] [a|e]]. Qed.

Lemma try_except_returns (m : M unit) st :
  outcome_of (try_except m (λ e, show (ErrorLoadingFile e)) st) = Returns tt.
Proof. unfold try_except. by destruct (m st) as [[st1 out1] [[]|e]]. Qed.

Section Preserves.
Context (P : relation SessionState) `{!PreOrder P}.

Lemma preserves_ret {A} (a : A) : preserves P (ret a).
Proof. intros st. reflexivity. Qed.

Lemma preserves_raise {A} e : preserves P (raise (A:=A) e).
Proof. intros st. reflexivity. Qed.

Lemma preserves_show msg : preserves P (show msg).
Proof. intros st. reflexivity. Qed.

Lemma preserves_gets {A} (f : SessionState → A) : preserves P (gets f).
Proof. intros st. reflexivity. Qed.

Lemma preserves_modify f : (∀ st, P st (f st)) → preserves P (modify f).
Proof. intros Hf st. apply Hf. Qed.

Lemma preserves_bind {A B} (m : M A) (k : A → M B) :
  preserves P m → (∀ a, preserves P (k a)) → preserves P (bind m k).
Proof.
  intros Hm Hk st. rewrite run_bind. specialize (Hm st).
  destruct (m st) as [[st1 out1] [a|e]]; cbn in *; [|done].
  etrans; [exact Hm | apply Hk].
Qed.

Lemma preserves_for_each {A} (l : list A) (body : A → M unit) :
  (∀ x, preserves P (body x)) → preserves P (for_each l body).
Proof.
  intros Hbody. induction l as [|x l IH]; simpl.
  - apply preserves_ret.
  - apply preserves_bind; [apply Hbody | intros _; apply IH].
Qed.

Lemma preserves_map_M {A B} (f : A → M B) (l : list A) :
  (∀ x, preserves P (f x)) → preserves P (map_M f l).
Proof.
  intros Hf. induction l as [|x l IH]; simpl.
  - apply preserves_ret.
  - apply preserves_bind; [apply Hf | intros y].
    apply preserves_bind; [apply IH | intros ys; apply preserves_ret].
Qed.

Lemma preserves_try_except (m : M unit) :
  preserves P m → preserves P (try_except m (λ e, show (ErrorLoadingFile e))).
Proof. intros Hm st. rewrite try_except_state. apply Hm. Qed.

Lemma preserves_haversine_py a b c d : preserves P (haversine_py a b c d).
Proof. intros st. destruct a, b, c, d; reflexivity. Qed.

End Preserves.

(** ** The company visibility map *)

Lemma set_all_lookup members b (vis : gmap string bool) c :
  set_all members b vis !! c
  = if bool_decide (c ∈ members) then Some b else vis !! c.
Proof.
  unfold set_all. revert vis.
  induction members as [|m members IH]; intros vis; cbn [foldl].
  - rewrite bool_decide_eq_false_2; [done | apply not_elem_of_nil].
  - rewrite IH. case_bool_decide as Hin.
    + rewrite bool_decide_eq_true_2; [done | by apply list_elem_of_further].
    + destruct (decide (c = m)) as [->|Hne].
      * rewrite lookup_insert_eq.
        rewrite bool_decide_eq_true_2; [done | apply list_elem_of_here].
      * rewrite lookup_insert_ne by done.
        rewrite bool_decide_eq_false_2; [done|].
        by apply not_elem_of_cons.
Qed.

Lemma set_all_dom members b (vis : gmap string bool) :
  dom vis ⊆ dom (set_all members b vis).
Proof.
  intros c [v Hv]%elem_of_dom. apply elem_of_dom.
  rewrite set_all_lookup. case_bool_decide; eauto.
Qed.

Lemma seed_company_lookup st row c :
  competitor_visibility (seed_company st row) !! c
  = if bool_decide (c = Company_Location row)
    then Some (get_visibility (competitor_visibility st) c)
    else competitor_visibility st !! c.
Proof.
  unfold seed_company, get_visibility. cbn.
  destruct (competitor_visibility st !! Company_Location row) as [v|] eqn:Hrow; cbn.
  - case_bool_decide as Hc; [subst c; by rewrite Hrow | done].
  - case_bool_decide as Hc.
    + subst c. by rewrite lookup_insert_eq, Hrow.
    + by rewrite lookup_insert_ne.
Qed.

Lemma seed_company_get_visibility st row c :
  get_visibility (competitor_visibility (seed_company st row)) c
  = get_visibility (competitor_visibility st) c.
Proof.
  unfold get_visibility at 1. rewrite seed_company_lookup.
  by case_bool_decide.
Qed.

Lemma seed_companies_lookup companies st c :
  competitor_visibility (seed_companies companies st) !! c
  = if bool_decide (c ∈ map Company_Location companies)
    then Some (get_visibility (competitor_visibility st) c)
    else competitor_visibility st !! c.
Proof.
  unfold seed_companies. revert st.
  induction companies as [|row companies IH]; intros st; cbn [foldl map].
  - rewrite bool_decide_eq_false_2; [done | apply not_elem_of_nil].
  - rewrite IH, seed_company_get_visibility, seed_company_lookup.
    case_bool_decide as Hin.
    + rewrite bool_decide_eq_true_2; [done | by apply list_elem_of_further].
    + case_bool_decide as Hc.
      * rewrite bool_decide_eq_true_2; [done | subst c; apply list_elem_of_here].
      * rewrite bool_decide_eq_false_2; [done | by apply not_elem_of_cons].
Qed.

Lemma seed_companies_sites companies st :
  project_sites (seed_companies companies st) = project_sites st.
Proof.
  unfold seed_companies. revert st.
  induction companies as [|row companies IH]; intros st; simpl; [done|].
  rewrite IH. unfold seed_company. cbn. by destruct (_ !! _).
Qed.

Lemma location_checkbox_dom w (vis : gmap string bool) row :
  dom vis ⊆ dom (location_checkbox w vis row).
Proof. unfold location_checkbox. rewrite dom_insert_L. set_solver. Qed.

Lemma group_block_dom w (vis : gmap string bool) g :
  dom vis ⊆ dom (group_block w vis g).
Proof.
  unfold group_block.
  assert (dom vis ⊆ dom (group_toggle w g.1 g.2 vis)) as Htoggle.
  { unfold group_toggle. destruct (button w _); [apply set_all_dom | done]. }
  revert Htoggle. generalize (group_toggle w g.1 g.2 vis). 
  induction g.2 as [|row l IH]; intros m Hm; simpl; [done|].
  apply IH. etrans; [exact Hm | apply location_checkbox_dom].
Qed.

Lemma company_toggles_dom w companies (vis : gmap string bool) :
  dom vis ⊆ dom (company_toggles w companies vis).
Proof.
  unfold company_toggles. revert vis.
  induction (groupby_Company_Name companies) as [|g gs IH]; intros vis; simpl; [done|].
  etrans; [apply (group_block_dom w vis g) | apply IH].
Qed.

(** ** What a whole re-run preserves

    The script changes the session state through nine elementary
    assignments.  A preorder on states that each of them respects is
    respected by a re-run, whether it ends normally or in the handler. *)

Section RerunPreserves.
Context (P : relation SessionState) `{!PreOrder P}.
Hypothesis P_add : ∀ k v st, P st (set_project_sites (dict_set k v) st).
Hypothesis P_seed_projects :
  ∀ projects st, P st (set_project_sites (seed_projects projects) st).
Hypothesis P_manage :
  ∀ w st, P st (set_project_sites (manage_project_sites w) st).
Hypothesis P_seed_companies : ∀ companies st, P st (seed_companies companies st).
Hypothesis P_flag : ∀ c b st, P st (set_competitor_visibility <[c := b]> st).
Hypothesis P_set_visible :
  ∀ name b st, P st (set_project_sites (set_visible name b) st).
Hypothesis P_last_radius : ∀ r st, P st (set_last_radius r st).
Hypothesis P_global : ∀ w st, P st (global_toggle w st).
Hypothesis P_groups :
  ∀ w companies st,
    P st (set_competitor_visibility (company_toggles w companies) st).

Local Ltac elementary :=
  cbv beta iota;
  first [ apply (preserves_ret P) | apply (preserves_raise P) | apply (preserves_show P)
        | apply (preserves_gets P) | apply (preserves_haversine_py P)
        | apply (preserves_modify P); intros ?; auto ]; try done.

Lemma add_project_preserves w : preserves P (add_project w).
Proof.
  unfold add_project. destruct (button w _); cbv iota; [|elementary].
  apply (preserves_bind P); [elementary | intros _; elementary].
Qed.

Lemma recompute_preserves r plat plon companies :
  preserves P (recompute r plat plon companies).
Proof.
  unfold recompute.
  apply (preserves_bind P); [|intros _].
  { apply (preserves_for_each P). intros rd. elementary. }
  apply (preserves_bind P); [elementary | intros sites].
  apply (preserves_bind P); [|intros _; elementary].
  apply (preserves_for_each P). intros item.
  apply (preserves_bind P); [elementary | intros dist; elementary].
Qed.

Lemma radius_block_preserves w companies : preserves P (radius_block w companies).
Proof.
  unfold radius_block.
  apply (preserves_bind P); [elementary | intros sites].
  destruct (selected_project (mode w) sites) as [[name site]|]; cbv beta iota; [|elementary].
  apply (preserves_bind P); [|intros distances].
  { apply (preserves_map_M P). intros row. elementary. }
  apply (preserves_bind P); [elementary | intros last].
  apply (preserves_bind P); [|intros _; elementary].
  destruct (Rneqb (radius_manual w) last); cbv iota; [|elementary].
  by apply recompute_preserves.
Qed.

Lemma toggles_preserves w companies : preserves P (toggles w companies).
Proof.
  unfold toggles. apply (preserves_bind P); [elementary | intros _; elementary].
Qed.

Lemma after_seeding_preserves w companies :
  preserves P (let* selected := radius_block w companies in toggles w companies).
Proof.
  apply (preserves_bind P); [apply radius_block_preserves | intros _].
  apply toggles_preserves.
Qed.

Lemma process_sheets_preserves w companies projects :
  preserves P (process_sheets w companies projects).
Proof.
  unfold process_sheets.
  apply (preserves_bind P); [elementary | intros _].
  apply (preserves_bind P); [elementary | intros _].
  apply (preserves_bind P); [elementary | intros _].
  apply after_seeding_preserves.
Qed.

Lemma load_body_preserves w f : preserves P (load_body w f).
Proof.
  unfold load_body.
  apply (preserves_bind P); [destruct f; elementary | intros xls].
  apply (preserves_bind P); [destruct xls.1; elementary | intros companies_df].
  apply (preserves_bind P); [destruct xls.2; elementary | intros projects_df].
  destruct (negb _); cbv iota; [elementary|]. destruct (negb _); cbv iota; [elementary|].
  apply process_sheets_preserves.
Qed.

Lemma load_data_preserves w : preserves P (load_data w).
Proof.
  unfold load_data. destruct (uploaded_file w) as [f|]; cbv iota; [|elementary].
  apply (preserves_try_except P). apply load_body_preserves.
Qed.

Lemma rerun_preserves w : preserves P (rerun w).
Proof.
  unfold rerun.
  apply (preserves_bind P); [apply add_project_preserves | intros _].
  apply load_data_preserves.
Qed.

End RerunPreserves.

(** ** Two invariants of a re-run *)

#[local] Instance keeps_companies_preorder : PreOrder keeps_companies.
Proof.
  split; unfold keeps_companies.
  - intros st. done.
  - intros st1 st2 st3 H12 H23. etrans; eassumption.
Qed.

#[local] Instance keeps_wf_preorder : PreOrder keeps_wf.
Proof. split; unfold keeps_wf; [intros st | intros st1 st2 st3]; tauto. Qed.

Lemma seed_companies_dom companies st :
  dom (competitor_visibility st)
  ⊆ dom (competitor_visibility (seed_companies companies st)).
Proof.
  intros c [v Hv]%elem_of_dom. apply elem_of_dom.
  rewrite seed_companies_lookup. case_bool_decide; eauto.
Qed.

Lemma global_toggle_sites w st :
  project_sites (global_toggle w st) = project_sites st.
Proof. unfold global_toggle. by destruct (button w _). Qed.

Lemma global_toggle_dom w st :
  dom (competitor_visibility st) ⊆ dom (competitor_visibility (global_toggle w st)).
Proof.
  unfold global_toggle. destruct (button w _); [|done]. apply set_all_dom.
Qed.

Lemma rerun_keeps_companies w : preserves keeps_companies (rerun w).
Proof.
  apply (rerun_preserves keeps_companies); unfold keeps_companies; cbn; try done.
  - apply seed_companies_dom.
  - intros c b st. rewrite dom_insert_L. set_solver.
  - apply global_toggle_dom.
  - intros; apply company_toggles_dom.
Qed.

Lemma fold_set_visible_keys (g : string * Site → bool) l d :
  dict_keys (foldl (λ d item, set_visible item.1 (g item) d) d l) = dict_keys d.
Proof.
  revert d. induction l as [|item l IH]; intros d; simpl; [done|].
  rewrite IH. apply dict_keys_update.
Qed.

Lemma fold_dict_del_wf {V} (names : list string) (d : list (string * V)) :
  dict_wf d → dict_wf (foldl (λ d name, dict_del name d) d names).
Proof.
  revert d. induction names as [|name names IH]; intros d Hwf; simpl; [done|].
  apply IH. by apply dict_wf_del.
Qed.

Lemma manage_project_sites_wf w sites :
  dict_wf sites → dict_wf (manage_project_sites w sites).
Proof.
  intros Hwf. unfold manage_project_sites. apply fold_dict_del_wf.
  unfold dict_wf.
  by rewrite (fold_set_visible_keys
                (λ item, checkbox w ("proj_" +:+ item.1) (visible item.2))).
Qed.

Lemma rerun_keeps_wf w : preserves keeps_wf (rerun w).
Proof.
  apply (rerun_preserves keeps_wf); unfold keeps_wf; cbn; try done.
  - intros k v st. apply dict_wf_set.
  - intros projects st. apply seed_projects_wf.
  - intros w' st. apply manage_project_sites_wf.
  - intros companies st. by rewrite seed_companies_sites.
  - intros name b st. unfold dict_wf, set_visible. by rewrite dict_keys_update.
  - intros w' st. by rewrite global_toggle_sites.
Qed.

(** Every state that re-runs reach from a fresh session holds a dict. *)
Lemma initial_state_wf : dict_wf (project_sites initial_state).
Proof. apply NoDup_nil_2. Qed.

(** ** Shape of a re-run *)

Lemma add_project_returns w st : outcome_of (add_project w st) = Returns tt.
Proof. unfold add_project. by destruct (button w _). Qed.

Lemma rerun_state w st :
  state_of (rerun w st) = state_of (load_data w (state_of (add_project w st))).
Proof.
  unfold rerun. rewrite run_bind.
  pose proof (add_project_returns w st) as Hret.
  destruct (add_project w st) as [[st1 out1] [[]|e]]; [done | discriminate Hret].
Qed.

Lemma load_body_valid w companies_df projects_df st :
  has_columns required_cols (columns companies_df) = true →
  has_columns required_project_cols (columns projects_df) = true →
  load_body w (Workbook (Some companies_df) (Some projects_df)) st
  = process_sheets w (rows companies_df) (rows projects_df) st.
Proof.
  intros Hc Hp. unfold load_body. cbn [ExcelFile].
  rewrite run_ret_then. cbn [fst snd read_excel].
  rewrite !run_ret_then. by rewrite Hc, Hp.
Qed.

Lemma process_sheets_run w companies projects st :
  process_sheets w companies projects st
  = (let* selected := radius_block w companies in toggles w companies)
      (seeded w companies projects st).
Proof. unfold process_sheets. by rewrite !run_modify_then. Qed.

(** C8: the seeding of lines 84-88 gives every location of the loaded
    Companies sheet an entry in [competitor_visibility], with value
    [True] when the location was not there before; after a re-run on a
    sheet with complete headers every location of the sheet has an
    entry; and no re-run, however it ends, removes an entry. *)
Theorem company_entries_seeded_and_kept :
  ∀ (w : Widgets) (st : SessionState)
    (companies_df : DataFrame CompanyRow) (projects_df : DataFrame ProjectRow),
    (∀ row, row ∈ rows companies_df →
       ∃ b, competitor_visibility (seed_companies (rows companies_df) st)
              !! Company_Location row = Some b
            ∧ (competitor_visibility st !! Company_Location row = None → b = true))
    ∧ (uploaded_file w = Some (Workbook (Some companies_df) (Some projects_df)) →
       has_columns required_cols (columns companies_df) = true →
       has_columns required_project_cols (columns projects_df) = true →
       ∀ row, row ∈ rows companies_df →
         is_Some (competitor_visibility (state_of (rerun w st))
                    !! Company_Location row))
    ∧ (∀ c, is_Some (competitor_visibility st !! c) →
            is_Some (competitor_visibility (state_of (rerun w st)) !! c)).
Proof.
  intros w st companies_df projects_df.
  assert (∀ st0 row, row ∈ rows companies_df →
            competitor_visibility (seed_companies (rows companies_df) st0)
              !! Company_Location row
            = Some (get_visibility (competitor_visibility st0) (Company_Location row)))
    as Hseed.
  { intros st0 row Hin. rewrite seed_companies_lookup.
    rewrite bool_decide_eq_true_2; [done|].
    apply list_elem_of_fmap. by exists row. }
  split_and!.
  - intros row Hin. eexists. split; [by apply Hseed|].
    unfold get_visibility. by intros ->.
  - intros Hfile Hc Hp row Hin.
    rewrite rerun_state. unfold load_data. rewrite Hfile.
    rewrite try_except_state, load_body_valid, process_sheets_run by done.
    apply elem_of_dom.
    apply (after_seeding_preserves keeps_companies); unfold keeps_companies; cbn;
      try done.
    + intros c b st0. rewrite dom_insert_L. set_solver.
    + apply global_toggle_dom.
    + intros; apply company_toggles_dom.
    + apply elem_of_dom. unfold seeded. rewrite Hseed by done. eauto.
  - intros c Hc. apply elem_of_dom. apply (rerun_keeps_companies w st).
    by apply elem_of_dom.
Qed.

(** ** The header check *)

Lemma column_present col cols :
  existsb (String.eqb col) cols = true ↔ col ∈ cols.
Proof.
  induction cols as [|c cols IH]; simpl.
  - split; [done | by intros ?%elem_of_nil].
  - rewrite orb_true_iff, IH, elem_of_cons, String.eqb_eq. done.
Qed.

Lemma has_columns_false required cols :
  has_columns required cols = false ↔ ∃ col, col ∈ required ∧ col ∉ cols.
Proof.
  unfold has_columns. induction required as [|r required IH]; simpl.
  - split; [done | by intros (col & ?%elem_of_nil & _)].
  - rewrite andb_false_iff, IH. split.
    + intros [Hr|(col & Hin & Hcol)].
      * exists r. split; [apply list_elem_of_here|].
        rewrite <- column_present. by rewrite Hr.
      * exists col. split; [by apply list_elem_of_further | done].
    + intros (col & [->|Hin]%elem_of_cons & Hcol).
      * left. apply not_true_iff_false. by rewrite column_present.
      * right. by exists col.
Qed.

(** C4: when the Companies sheet lacks one of its four required columns
    or the Projects sheet lacks one of its three, loading shows the
    validation error of the first sheet that is incomplete and nothing
    else, and leaves the whole session state as it was. *)
Theorem missing_column_leaves_state :
  ∀ (w : Widgets) (st : SessionState)
    (companies_df : DataFrame CompanyRow) (projects_df : DataFrame ProjectRow),
    uploaded_file w = Some (Workbook (Some companies_df) (Some projects_df)) →
    (∃ col, col ∈ required_cols ∧ col ∉ columns companies_df)
    ∨ (∃ col, col ∈ required_project_cols ∧ col ∉ columns projects_df) →
    load_data w st
    = (st,
       [if has_columns required_cols (columns companies_df)
        then ErrorProjectsColumns else ErrorCompaniesColumns],
       Returns tt).
Proof.
  intros w st companies_df projects_df Hfile Hmissing.
  unfold load_data, try_except, load_body. rewrite Hfile.
  cbn [ExcelFile]. rewrite run_ret_then. cbn [fst snd read_excel].
  rewrite !run_ret_then.
  destruct (has_columns required_cols (columns companies_df)) eqn:Hc; [|done].
  destruct Hmissing as [Hmissing|Hmissing].
  - apply has_columns_false in Hmissing. congruence.
  - apply has_columns_false in Hmissing. by rewrite Hmissing.
Qed.

(** ** The radius block *)

Lemma Rneqb_refl x : Rneqb x x = false.
Proof. unfold Rneqb. by destruct (Req_dec_T x x). Qed.

Lemma Rneqb_ne x y : x ≠ y → Rneqb x y = true.
Proof. intros Hne. unfold Rneqb. by destruct (Req_dec_T x y). Qed.

Lemma Rleb_le x y : Rleb x y = true ↔ (x <= y)%R.
Proof. unfold Rleb. by destruct (Rle_dec x y). Qed.

Lemma silent_ret {A} (a : A) : silent (ret a).
Proof. done. Qed.

Lemma silent_bind {A B} (m : M A) (k : A → M B) :
  silent m → (∀ a, silent (k a)) → silent (bind m k).
Proof.
  intros Hm Hk st. rewrite run_bind. destruct (Hm st) as [Hst Hout].
  destruct (m st) as [[st1 out1] [a|e]]; cbn in *; subst; [|done].
  destruct (Hk a st) as [-> ->]. done.
Qed.

Lemma silent_haversine_py a b c d : silent (haversine_py a b c d).
Proof. intros st. by destruct a, b, c, d. Qed.

Lemma silent_map_M {A B} (f : A → M B) l : (∀ x, silent (f x)) → silent (map_M f l).
Proof.
  intros Hf. induction l as [|x l IH]; simpl; [apply silent_ret|].
  apply silent_bind; [apply Hf | intros y].
  apply silent_bind; [apply IH | intros ys; apply silent_ret].
Qed.

(** C2: when the requested radius is the last applied one, the radius
    block recomputes nothing: it leaves every company flag and every
    project flag, set by hand or not, and the rest of the state as they
    are, and shows nothing. *)
Theorem same_radius_changes_nothing :
  ∀ (w : Widgets) (companies : list CompanyRow) (st : SessionState),
    radius_manual w = last_radius st →
    state_of (radius_block w companies st) = st
    ∧ shown_of (radius_block w companies st) = [].
Proof.
  intros w companies st Hsame.
  unfold radius_block. rewrite run_gets_then.
  destruct (selected_project (mode w) (project_sites st)) as [[name site]|];
    [|done].
  rewrite run_bind.
  match goal with |- context [map_M ?f companies st] =>
    destruct (silent_map_M f companies
                (λ row, silent_haversine_py _ _ _ _) st) as [Hst Hout];
    destruct (map_M f companies st) as [[st1 out1] [distances|e]]
  end; cbn in Hst, Hout; subst st1 out1; [|done].
  rewrite run_gets_then, Hsame, Rneqb_refl. done.
Qed.



(** ** The recompute *)

Lemma haversine_py_numeric plat plon la lo st :
  is_Some (number_in la) → is_Some (number_in lo) →
  haversine_py (CNum plat) (CNum plon) la lo st
  = (st, [], Returns (distance_from plat plon la lo)).
Proof. destruct la, lo; intros [? [=]] [? [=]]. done. Qed.

Lemma map_M_distances plat plon companies st :
  Forall numeric_row companies →
  map_M (λ row, haversine_py (CNum plat) (CNum plon)
                  (c_Latitude row) (c_Longitude row)) companies st
  = (st, [],
     Returns (map (λ row, distance_from plat plon
                            (c_Latitude row) (c_Longitude row)) companies)).
Proof.
  induction 1 as [|row companies [Hla Hlo] _ IH]; cbn [map_M map]; [done|].
  rewrite run_bind, haversine_py_numeric by done.
  cbn [state_of shown_of outcome_of fst snd app].
  rewrite run_bind, IH. done.
Qed.

Lemma combine_map_self {A B} (f : A → B) (l : list A) :
  combine l (map f l) = map (λ x, (x, f x)) l.
Proof. induction l as [|x l IH]; simpl; [done | by rewrite IH]. Qed.

Lemma run_flag_companies r (cds : list (CompanyRow * R)) st :
  for_each cds (λ rd,
    modify (set_competitor_visibility <[Company_Location rd.1 := Rleb rd.2 r]>)) st
  = (set_competitor_visibility (flag_companies r cds) st, [], Returns tt).
Proof.
  rewrite (run_for_each_modify
             (λ rd, set_competitor_visibility
                      <[Company_Location rd.1 := Rleb rd.2 r]>)).
  f_equal. f_equal. unfold flag_companies. revert st.
  induction cds as [|rd cds IH]; intros st; simpl; [by destruct st|].
  by rewrite IH.
Qed.

Lemma run_flag_projects r plat plon (items : list (string * Site)) st :
  Forall (λ item, numeric_site item.2) items →
  for_each items (λ item,
    let* dist := haversine_py (CNum plat) (CNum plon) (lat item.2) (lon item.2) in
    modify (set_project_sites (set_visible item.1 (Rleb dist r)))) st
  = (set_project_sites (flag_projects r plat plon items) st, [], Returns tt).
Proof.
  intros Hnum. revert st. unfold flag_projects.
  induction Hnum as [|item items [Hla Hlo] _ IH]; intros st;
    cbn [for_each foldl].
  - by destruct st.
  - rewrite run_bind, run_bind, haversine_py_numeric by done.
    cbn [state_of shown_of outcome_of fst snd modify app].
    rewrite IH. done.
Qed.

Lemma recompute_run r plat plon cds st :
  Forall (λ item, numeric_site item.2) (project_sites st) →
  recompute r (CNum plat) (CNum plon) cds st
  = ({| competitor_visibility := flag_companies r cds (competitor_visibility st);
        project_sites := flag_projects r plat plon (project_sites st) (project_sites st);
        all_competitors := all_competitors st;
        last_radius := r |}, [], Returns tt).
Proof.
  intros Hnum. unfold recompute.
  rewrite run_bind, run_flag_companies.
  cbn [state_of shown_of outcome_of fst snd app].
  rewrite run_gets_then. cbn [project_sites set_competitor_visibility].
  rewrite run_bind, run_flag_projects by done.
  done.
Qed.

Lemma flag_companies_frame r cds (vis : gmap string bool) c :
  c ∉ map (λ rd, Company_Location rd.1) cds →
  flag_companies r cds vis !! c = vis !! c.
Proof.
  unfold flag_companies. revert vis.
  induction cds as [|rd cds IH]; intros vis; cbn [foldl map]; [done|].
  intros [Hne Hc]%not_elem_of_cons.
  rewrite IH by done. by rewrite lookup_insert_ne.
Qed.

Lemma flag_companies_last r l1 rd l2 (vis : gmap string bool) :
  Company_Location rd.1 ∉ map (λ rd, Company_Location rd.1) l2 →
  flag_companies r (l1 ++ rd :: l2) vis !! Company_Location rd.1
  = Some (Rleb rd.2 r).
Proof.
  intros Hlast. unfold flag_companies. rewrite foldl_app. cbn [foldl].
  fold (flag_companies r l2
          (<[Company_Location rd.1 := Rleb rd.2 r]> (foldl
             (λ m rd0, <[Company_Location rd0.1 := Rleb rd0.2 r]> m) vis l1))).
  rewrite flag_companies_frame by done. apply lookup_insert_eq.
Qed.

Lemma flag_projects_keys r plat plon items sites :
  dict_keys (flag_projects r plat plon items sites) = dict_keys sites.
Proof.
  apply (fold_set_visible_keys
           (λ item, Rleb (distance_from plat plon (lat item.2) (lon item.2)) r)).
Qed.

Lemma flag_projects_get r plat plon items sites k :
  dict_wf items →
  dict_get k (flag_projects r plat plon items sites)
  = match dict_get k items with
    | Some s =>
        with_visible (Rleb (distance_from plat plon (lat s) (lon s)) r)
          <$> dict_get k sites
    | None => dict_get k sites
    end.
Proof.
  unfold flag_projects, dict_wf. revert sites.
  induction items as [|[k0 s0] items IH]; intros sites Hwf; simpl; [done|].
  apply NoDup_cons in Hwf as [Hk0 Hwf].
  rewrite IH by done. unfold set_visible. rewrite dict_get_update.
  destruct (String.eqb_spec k0 k) as [->|Hne].
  - rewrite bool_decide_eq_true_2 by done.
    cbn in Hk0. by rewrite (proj2 (dict_get_None k items) Hk0).
  - rewrite bool_decide_eq_false_2 by done. done.
Qed.

Lemma radius_block_recomputes w companies st name ref rest plat plon :
  mode w = CompaniesWithinRadiusOfProject →
  visible_projects (project_sites st) = (name, ref) :: rest →
  lat ref = CNum plat → lon ref = CNum plon →
  radius_manual w ≠ last_radius st →
  Forall numeric_row companies →
  Forall (λ item, numeric_site item.2) (project_sites st) →
  radius_block w companies st
  = ({| competitor_visibility :=
          flag_companies (radius_manual w)
            (map (λ row, (row, distance_from plat plon
                                 (c_Latitude row) (c_Longitude row))) companies)
            (competitor_visibility st);
        project_sites :=
          flag_projects (radius_manual w) plat plon
            (project_sites st) (project_sites st);
        all_competitors := all_competitors st;
        last_radius := radius_manual w |}, [], Returns (Some name)).
Proof.
  intros Hmode Hvis Hlat Hlon Hne Hrows Hsites.
  unfold radius_block. rewrite run_gets_then.
  unfold selected_project. rewrite Hmode, Hvis, Hlat, Hlon.
  rewrite run_bind, map_M_distances by done.
  cbn [state_of shown_of outcome_of fst snd app].
  rewrite run_gets_then, Rneqb_ne by done.
  rewrite run_bind, combine_map_self, recompute_run by done.
  done.
Qed.

(** C1: in "Companies Within Radius of Project" mode with a visible
    project, when the requested radius differs from the last applied one
    (and the coordinates are numbers), the radius block returns with the
    first visible project as reference and has overwritten every flag:
    the flag of a company row is true exactly when its haversine distance
    from the reference is at most the radius, whatever it was before, and
    so is the flag of every project; the projects keep their names,
    order and coordinates, and the radius becomes the last applied one.
    Where several rows share a location the last of them decides, so a
    row stands for its company when no later row repeats its location. *)
Theorem radius_recompute_overwrites :
  ∀ (w : Widgets) (companies : list CompanyRow) (st : SessionState)
    (name : string) (ref : Site) (rest : list (string * Site)) (plat plon : R),
    mode w = CompaniesWithinRadiusOfProject →
    visible_projects (project_sites st) = (name, ref) :: rest →
    lat ref = CNum plat → lon ref = CNum plon →
    radius_manual w ≠ last_radius st →
    dict_wf (project_sites st) →
    Forall numeric_row companies →
    Forall (λ item, numeric_site item.2) (project_sites st) →
    let st' := state_of (radius_block w companies st) in
    outcome_of (radius_block w companies st) = Returns (Some name)
    ∧ (∀ l1 row l2 la lo,
         companies = l1 ++ row :: l2 →
         Company_Location row ∉ map Company_Location l2 →
         c_Latitude row = CNum la → c_Longitude row = CNum lo →
         ∃ b, competitor_visibility st' !! Company_Location row = Some b
              ∧ (b = true
                 ↔ (Distance.haversine plat plon la lo <= radius_manual w)%R))
    ∧ (∀ pname s la lo,
         (pname, s) ∈ project_sites st →
         lat s = CNum la → lon s = CNum lo →
         ∃ b, dict_get pname (project_sites st')
              = Some {| lat := lat s; lon := lon s; visible := b |}
              ∧ (b = true
                 ↔ (Distance.haversine plat plon la lo <= radius_manual w)%R))
    ∧ dict_keys (project_sites st') = dict_keys (project_sites st)
    ∧ last_radius st' = radius_manual w.
Proof.
  intros w companies st name ref rest plat plon
    Hmode Hvis Hlat Hlon Hne Hwf Hrows Hsites.
  rewrite (radius_block_recomputes w companies st name ref rest plat plon)
    by done.
  cbn. split_and!; try done.
  - intros l1 row l2 la lo -> Hlast Hla Hlo.
    eexists. split.
    + rewrite map_app. cbn [map].
      apply (flag_companies_last (radius_manual w) _
               (row, distance_from plat plon (c_Latitude row) (c_Longitude row))).
      cbn [fst]. by rewrite map_map.
    + cbn [snd]. rewrite Hla, Hlo. apply Rleb_le.
  - intros pname s la lo Hin Hla Hlo.
    eexists. split.
    + rewrite flag_projects_get by done.
      rewrite (dict_get_elem pname s) by done. reflexivity.
    + rewrite Hla, Hlo. apply Rleb_le.
  - apply flag_projects_keys.
Qed.

(** The recompute writes the flags of the locations of the sheet only. *)
Lemma radius_block_frame w companies st c :
  Forall numeric_row companies →
  Forall (λ item, numeric_site item.2) (project_sites st) →
  c ∉ map Company_Location companies →
  competitor_visibility (state_of (radius_block w companies st)) !! c
  = competitor_visibility st !! c.
Proof.
  intros Hrows Hsites Hc. unfold radius_block. rewrite run_gets_then.
  destruct (selected_project (mode w) (project_sites st)) as [[name site]|] eqn:Hsel;
    [|done].
  assert (site ∈ map snd (project_sites st)) as Hin.
  { unfold selected_project, visible_projects in Hsel.
    destruct (mode w); [done|].
    destruct (List.filter _ _) as [|item items] eqn:Hfilter; [done|].
    injection Hsel as ->.
    assert (In (name, site) (List.filter (λ item, visible item.2) (project_sites st)))
      as Hf by (rewrite Hfilter; left; done).
    apply filter_In in Hf as [Hf _]. apply list_elem_of_fmap.
    exists (name, site). split; [done | by apply list_elem_of_In]. }
  apply list_elem_of_fmap in Hin as ([k s] & -> & Hin).
  rewrite Forall_forall in Hsites. destruct (Hsites _ Hin) as [Hla Hlo].
  cbn [snd] in *.
  destruct (lat s) as [plat|] eqn:Hlat; [|by destruct Hla].
  destruct (lon s) as [plon|] eqn:Hlon; [|by destruct Hlo].
  rewrite run_bind, map_M_distances by done.
  cbn [state_of shown_of outcome_of fst snd app].
  rewrite run_gets_then.
  destruct (Rneqb (radius_manual w) (last_radius st)); [|done].
  rewrite run_bind, combine_map_self, recompute_run.
  - cbn. apply flag_companies_frame. by rewrite map_map.
  - apply Forall_forall. intros item Hitem. by apply Hsites.
Qed.

(** ** Bulk toggles *)

Lemma forallb_elem_of {A} (f : A → bool) (l : list A) :
  forallb f l = true ↔ ∀ x, x ∈ l → f x = true.
Proof.
  rewrite forallb_forall. split; intros H x Hx; apply H; by apply list_elem_of_In.
Qed.

Lemma global_all_on_spec st :
  global_all_on st = true
  ↔ ∀ c, c ∈ all_competitors st → get_visibility (competitor_visibility st) c = true.
Proof.
  unfold global_all_on. rewrite forallb_elem_of.
  split; intros H c Hc; apply H; by apply elem_of_elements.
Qed.

Lemma all_checked_spec group (vis : gmap string bool) :
  all_checked group vis = true
  ↔ ∀ row, row ∈ group → get_visibility vis (Company_Location row) = true.
Proof. unfold all_checked. apply forallb_elem_of. Qed.

(** C3: the global button and the button of a Company Name group set
    the flag of every member to false when all members were visible
    (a missing flag counts as visible, as the script reads it) and to
    true otherwise, so also when only some were visible; the flags of
    the locations outside the group are not touched. *)
Theorem bulk_toggle_by_aggregate_state :
  ∀ (w : Widgets) (st : SessionState)
    (company : string) (group : list CompanyRow) (vis : gmap string bool),
    (global_all_on st = true
     ↔ ∀ c, c ∈ all_competitors st →
            get_visibility (competitor_visibility st) c = true)
    ∧ (button w (if global_all_on st then "Deselect All" else "Select All") = true →
       (∀ c, c ∈ all_competitors st →
          competitor_visibility (global_toggle w st) !! c
          = Some (negb (global_all_on st)))
       ∧ (∀ c, c ∉ all_competitors st →
          competitor_visibility (global_toggle w st) !! c
          = competitor_visibility st !! c))
    ∧ (all_checked group vis = true
       ↔ ∀ row, row ∈ group → get_visibility vis (Company_Location row) = true)
    ∧ (button w ((if all_checked group vis then "Deselect All" else "Select All")
                 +:+ " (" +:+ company +:+ ")") = true →
       (∀ row, row ∈ group →
          group_toggle w company group vis !! Company_Location row
          = Some (negb (all_checked group vis)))
       ∧ (∀ c, c ∉ map Company_Location group →
          group_toggle w company group vis !! c = vis !! c)).
Proof.
  intros w st company group vis. split_and!.
  - apply global_all_on_spec.
  - intros Hpressed. unfold global_toggle. rewrite Hpressed. cbn. split.
    + intros c Hc. rewrite set_all_lookup.
      rewrite bool_decide_eq_true_2; [done | by apply elem_of_elements].
    + intros c Hc. rewrite set_all_lookup.
      rewrite bool_decide_eq_false_2; [done | by rewrite elem_of_elements].
  - apply all_checked_spec.
  - intros Hpressed. unfold group_toggle. rewrite Hpressed. split.
    + intros row Hrow. rewrite set_all_lookup.
      rewrite bool_decide_eq_true_2; [done|].
      apply list_elem_of_fmap. by exists row.
    + intros c Hc. rewrite set_all_lookup.
      by rewrite bool_decide_eq_false_2.
Qed.

(** ** Exceptions *)

Lemma silent_ExcelFile f : silent (ExcelFile f).
Proof. intros st. by destruct f. Qed.

Lemma silent_read_excel {Row} (sheet : option (DataFrame Row)) name :
  silent (read_excel sheet name).
Proof. intros st. by destruct sheet. Qed.

Lemma toggles_returns w companies st :
  outcome_of (toggles w companies st) = Returns tt
  ∧ shown_of (toggles w companies st) = [].
Proof. unfold toggles. by rewrite run_modify_then. Qed.

Lemma quiet_bind {A B} (m : M A) (k : A → M B) :
  quiet m → (∀ a, quiet (k a)) → quiet (bind m k).
Proof.
  intros Hm Hk st. rewrite run_bind. specialize (Hm st).
  destruct (m st) as [[st1 out1] [a|e]]; cbn in *; subst; [|done].
  apply Hk.
Qed.

Lemma quiet_for_each {A} (l : list A) (body : A → M unit) :
  (∀ x, quiet (body x)) → quiet (for_each l body).
Proof.
  intros Hbody. induction l as [|x l IH]; cbn [for_each]; [done|].
  apply quiet_bind; [apply Hbody | intros _; apply IH].
Qed.

Lemma quiet_silent {A} (m : M A) : silent m → quiet m.
Proof. intros Hm st. apply Hm. Qed.

Lemma quiet_recompute r plat plon cds : quiet (recompute r plat plon cds).
Proof.
  unfold recompute.
  apply quiet_bind; [apply quiet_for_each; by intros rd st | intros _].
  apply quiet_bind; [done | intros sites].
  apply quiet_bind; [|by intros _ st].
  apply quiet_for_each. intros item.
  apply quiet_bind; [apply quiet_silent, silent_haversine_py | by intros dist st].
Qed.

Lemma quiet_radius_block w companies : quiet (radius_block w companies).
Proof.
  unfold radius_block. apply quiet_bind; [done | intros sites].
  destruct (selected_project (mode w) sites) as [[name site]|]; [|done].
  apply quiet_bind.
  { apply quiet_silent, silent_map_M. intros row. apply silent_haversine_py. }
  intros distances. apply quiet_bind; [done | intros last].
  apply quiet_bind; [|by intros _ st].
  destruct (Rneqb (radius_manual w) last); [apply quiet_recompute | done].
Qed.

#[local] Instance keeps_project_names_preorder : PreOrder keeps_project_names.
Proof.
  split; unfold keeps_project_names; [intros st | intros st1 st2 st3]; congruence.
Qed.

Lemma radius_block_keeps_project_names w companies :
  preserves keeps_project_names (radius_block w companies).
Proof.
  apply (radius_block_preserves keeps_project_names);
    unfold keeps_project_names; try done.
  intros name b st. symmetry. apply dict_keys_update.
Qed.

Lemma radius_block_keeps_companies w companies :
  preserves keeps_companies (radius_block w companies).
Proof.
  apply (radius_block_preserves keeps_companies);
    unfold keeps_companies; cbn; try done.
  intros c b st. rewrite dom_insert_L. set_solver.
Qed.

(** C5 as stated fails: with an empty session, a Companies row whose
    latitude is a text makes the distance column raise [TypeError]; the
    error is caught and shown, but the project and the company seeded
    earlier in the same pass stay in the session state. *)
Lemma exception_keeps_earlier_mutations :
  outcome_of (load_body text_widgets text_workbook initial_state) = Raises TypeError
  ∧ shown_of (load_data text_widgets initial_state) = [ErrorLoadingFile TypeError]
  ∧ project_sites (state_of (load_data text_widgets initial_state))
    = [("P", site_P true)]
  ∧ competitor_visibility (state_of (load_data text_widgets initial_state)) !! "D"
    = Some true
  ∧ state_of (load_data text_widgets initial_state) ≠ initial_state.
Proof.
  split_and!; try (vm_compute; reflexivity).
  intros Heq. apply (f_equal project_sites) in Heq.
  vm_compute in Heq. discriminate Heq.
Qed.

Lemma try_except_catches (body : M unit) st st1 out1 e :
  body st = (st1, out1, Raises e) →
  try_except body (λ e, show (ErrorLoadingFile e)) st
  = (st1, out1 ++ [ErrorLoadingFile e], Returns tt).
Proof. intros Hbody. unfold try_except. by rewrite Hbody. Qed.

(** C5, amended: an exception raised in the body of the [try] is caught
    and shown as one message, and the load block ends normally; the
    session state is the one reached when the exception was raised, not
    the one before the pass.  This holds of the handler whatever the
    body does.  In particular the state is the state before the pass
    when the file or one of its sheets cannot be read; and when the
    radius block raises, the seeding of projects and companies and the
    project check boxes and deletions made earlier in the pass are kept,
    together with whatever the radius block had already changed: nothing
    is rolled back. *)
Theorem exception_caught_state_as_reached :
  ∀ (w : Widgets) (f : Upload) (st : SessionState),
    uploaded_file w = Some f →
    outcome_of (load_data w st) = Returns tt
    ∧ (∀ (body : M unit) st1 out1 e,
         body st = (st1, out1, Raises e) →
         try_except body (λ e, show (ErrorLoadingFile e)) st
         = (st1, out1 ++ [ErrorLoadingFile e], Returns tt))
    ∧ ((∀ c p, f ≠ Workbook (Some c) (Some p)) →
       ∃ e, load_data w st = (st, [ErrorLoadingFile e], Returns tt))
    ∧ (∀ c p st1 out1 e,
         f = Workbook (Some c) (Some p) →
         has_columns required_cols (columns c) = true →
         has_columns required_project_cols (columns p) = true →
         radius_block w (rows c) (seeded w (rows c) (rows p) st)
         = (st1, out1, Raises e) →
         load_data w st = (st1, [ErrorLoadingFile e], Returns tt)
         ∧ dict_keys (project_sites st1)
           = dict_keys (project_sites (seeded w (rows c) (rows p) st))
         ∧ ∀ row, row ∈ rows c →
             is_Some (competitor_visibility st1 !! Company_Location row)).
Proof.
  intros w f st Hfile. split_and!.
  - unfold load_data. rewrite Hfile. apply try_except_returns.
  - intros body st1 out1 e. apply try_except_catches.
  - intros Hf. unfold load_data. rewrite Hfile.
    destruct f as [|[c|] [p|]]; [| by destruct (Hf c p) | ..];
      eexists; reflexivity.
  - intros c p st1 out1 e -> Hc Hp Hblock.
    pose proof (quiet_radius_block w (rows c) (seeded w (rows c) (rows p) st))
      as Hquiet.
    pose proof (radius_block_keeps_project_names w (rows c)
                  (seeded w (rows c) (rows p) st)) as Hnames.
    pose proof (radius_block_keeps_companies w (rows c)
                  (seeded w (rows c) (rows p) st)) as Hdom.
    rewrite Hblock in Hquiet, Hnames, Hdom. cbn in Hquiet, Hnames, Hdom.
    subst out1. split_and!.
    + unfold load_data. rewrite Hfile.
      rewrite (try_except_catches _ st st1 [] e); [done|].
      rewrite load_body_valid, process_sheets_run by done.
      by rewrite run_bind, Hblock.
    + done.
    + intros row Hrow. apply elem_of_dom, Hdom, elem_of_dom.
      unfold seeded. rewrite seed_companies_lookup.
      rewrite bool_decide_eq_true_2; [eauto|].
      apply list_elem_of_fmap. by exists row.
Qed.

(** * The theorems at concrete inputs *)

Ltac not_in_list :=
  cbn; repeat (apply not_elem_of_cons; split; [discriminate|]);
  apply not_elem_of_nil.

Lemma haversine_origin : (Distance.haversine 0 0 0 0 <= 10)%R.
Proof. rewrite haversine_refl. lra. Qed.

Lemma radius_recompute_overwrites_witness :
  ∃ b, competitor_visibility
         (state_of (radius_block (example_widgets None 10) [row_A; row_B; row_C]
                      (state_with_P true ∅ (-1)))) !! "A" = Some b
       ∧ (b = true ↔ (Distance.haversine 0 0 0 0 <= 10)%R).
Proof.
  refine (proj1 (proj2
    (radius_recompute_overwrites (example_widgets None 10) [row_A; row_B; row_C]
       (state_with_P true ∅ (-1)) "P" (site_P true) [] 0 0 _ _ _ _ _ _ _ _))
    [] row_A [row_B; row_C] 0%R 0%R _ _ _ _).
  - reflexivity.
  - reflexivity.
  - reflexivity.
  - reflexivity.
  - cbn. lra.
  - apply NoDup_singleton.
  - repeat constructor; by eexists.
  - repeat constructor; by eexists.
  - reflexivity.
  - not_in_list.
  - reflexivity.
  - reflexivity.
Defined.

Lemma same_radius_changes_nothing_witness :
  state_of (radius_block (example_widgets None 10) [row_A; row_B; row_C]
              (state_with_P true {["A" := false]} 10))
  = state_with_P true {["A" := false]} 10
  ∧ shown_of (radius_block (example_widgets None 10) [row_A; row_B; row_C]
                (state_with_P true {["A" := false]} 10)) = [].
Proof.
  apply (same_radius_changes_nothing (example_widgets None 10)
           [row_A; row_B; row_C] (state_with_P true {["A" := false]} 10)).
  reflexivity.
Defined.

Lemma bulk_toggle_by_aggregate_state_witness :
  (∀ c, c ∈ all_competitors (state_with_P true {["A" := true; "B" := true]} 10) →
     competitor_visibility
       (global_toggle (pressing "Deselect All" (example_widgets None 10))
          (state_with_P true {["A" := true; "B" := true]} 10)) !! c
     = Some false)
  ∧ (∀ row, row ∈ [row_A; row_B] →
       group_toggle (pressing "Select All (Acme)" (example_widgets None 10))
         "Acme" [row_A; row_B] {["A" := true; "B" := false]}
         !! Company_Location row
       = Some true).
Proof.
  pose proof (bulk_toggle_by_aggregate_state
                (pressing "Deselect All" (example_widgets None 10))
                (state_with_P true {["A" := true; "B" := true]} 10)
                "Acme" [] ∅) as (_ & Hglobal & _).
  pose proof (bulk_toggle_by_aggregate_state
                (pressing "Select All (Acme)" (example_widgets None 10))
                initial_state
                "Acme" [row_A; row_B] {["A" := true; "B" := false]})
    as (_ & _ & _ & Hgroup).
  split.
  - apply Hglobal. vm_compute. reflexivity.
  - apply Hgroup. vm_compute. reflexivity.
Defined.

Lemma missing_column_leaves_state_witness :
  load_data
    (example_widgets
       (Some (example_workbook ["Company Location"; "Longitude"; "Company Name"]
                [row_A])) 10)
    (state_with_P false {["A" := false]} 10)
  = (state_with_P false {["A" := false]} 10, [ErrorCompaniesColumns], Returns tt).
Proof.
  apply (missing_column_leaves_state
           (example_widgets
              (Some (example_workbook
                       ["Company Location"; "Longitude"; "Company Name"] [row_A])) 10)
           (state_with_P false {["A" := false]} 10)
           (companies_sheet ["Company Location"; "Longitude"; "Company Name"] [row_A])
           projects_sheet).
  - reflexivity.
  - left. exists "Latitude". split.
    + apply list_elem_of_further, list_elem_of_here.
    + not_in_list.
Defined.

Lemma exception_caught_state_as_reached_witness :
  load_data text_widgets initial_state
  = (state_of (radius_block text_widgets [row_text]
                 (seeded text_widgets [row_text] [project_P] initial_state)),
     [ErrorLoadingFile TypeError], Returns tt).
Proof.
  apply (proj2 (proj2 (proj2 (exception_caught_state_as_reached
           text_widgets text_workbook initial_state eq_refl)))
           (companies_sheet required_cols [row_text]) projects_sheet
           (state_of (radius_block text_widgets [row_text]
                        (seeded text_widgets [row_text] [project_P] initial_state)))
           [] TypeError eq_refl eq_refl eq_refl).
  vm_compute. reflexivity.
Defined.



Lemma company_entries_seeded_and_kept_witness :
  (∃ b, competitor_visibility
          (seed_companies [row_A; row_B] (state_with_P true {["A" := false]} 10))
          !! "B" = Some b
        ∧ (competitor_visibility (state_with_P true {["A" := false]} 10) !! "B" = None
           → b = true))
  ∧ is_Some (competitor_visibility
               (state_of (rerun text_widgets initial_state)) !! "D")
  ∧ is_Some (competitor_visibility
               (state_of (rerun text_widgets (state_with_P true {["A" := false]} 10)))
               !! "A").
Proof.
  split_and!.
  - apply (proj1 (company_entries_seeded_and_kept (example_widgets None 10)
                    (state_with_P true {["A" := false]} 10)
                    (companies_sheet required_cols [row_A; row_B]) projects_sheet)
             row_B).
    apply list_elem_of_further, list_elem_of_here.
  - apply (proj1 (proj2 (company_entries_seeded_and_kept text_widgets initial_state
                    (companies_sheet required_cols [row_text]) projects_sheet))
             eq_refl eq_refl eq_refl row_text).
    apply list_elem_of_here.
  - apply (proj2 (proj2 (company_entries_seeded_and_kept text_widgets
                    (state_with_P true {["A" := false]} 10)
                    (companies_sheet required_cols [row_text]) projects_sheet)) "A").
    by eexists.
Defined.

Lemma add_project_sets_entry_witness :
  dict_get "X"
    (project_sites
       (state_of (add_project (pressing "Add Project" (example_widgets None 10))
                    initial_state)))
  = Some {| lat := CNum 40; lon := CNum (-75); visible := true |}.
Proof.
  apply (add_project_sets_entry (pressing "Add Project" (example_widgets None 10))
           initial_state eq_refl).
Defined.

(** * Further properties of the script *)

(** ** The distance function *)

Section DistanceBounds.
Import Distance.
Local Open Scope R_scope.

Lemma asin_nonneg x : 0 <= x → 0 <= asin x.
Proof.
  intros Hx. destruct (Rle_dec 1 x) as [H1|H1].
  - unfold asin. destruct (Rle_dec x (-1)); [lra|].
    destruct (Rle_dec 1 x); [|lra]. pose proof PI_RGT_0. lra.
  - destruct (Rle_lt_dec 0 (asin x)) as [|Hneg]; [done|].
    pose proof (asin_bound x) as [Hlow _]. pose proof PI_RGT_0 as Hpi.
    assert (sin (asin x) < 0) as Hsin by (apply sin_lt_0_var; lra).
    rewrite sin_asin in Hsin by lra. lra.
Qed.

(** X1: a distance is never negative and never more than half the
    circumference of the sphere of radius 3958.8. *)
Theorem haversine_bounds :
  ∀ lat1 lon1 lat2 lon2 : R,
    0 <= haversine lat1 lon1 lat2 lon2 <= 3958.8 * PI.
Proof.
  intros. unfold haversine; cbv zeta.
  match goal with |- context [asin ?y] =>
    pose proof (asin_bound y) as [_ Hup];
    pose proof (asin_nonneg y (sqrt_pos _)) as Hlow
  end.
  split; nra.
Qed.

End DistanceBounds.

(** ** Loading *)

(** X3: without a file the script only asks for one; a file that is no
    workbook, or a workbook without the Companies sheet or without the
    Projects sheet, gives one error message naming the cause (the
    Companies sheet is looked up first, and both sheets are read before
    any header is checked).  In all these cases the session state is
    left as it was. *)
Theorem unreadable_upload_leaves_state :
  ∀ (w : Widgets) (st : SessionState),
    (uploaded_file w = None →
       load_data w st = (st, [InfoPleaseUpload], Returns tt))
    ∧ (uploaded_file w = Some NotAWorkbook →
       load_data w st = (st, [ErrorLoadingFile BadFile], Returns tt))
    ∧ (∀ projects, uploaded_file w = Some (Workbook None projects) →
       load_data w st
       = (st, [ErrorLoadingFile (WorksheetNotFound "Companies")], Returns tt))
    ∧ (∀ companies, uploaded_file w = Some (Workbook (Some companies) None) →
       load_data w st
       = (st, [ErrorLoadingFile (WorksheetNotFound "Projects")], Returns tt)).
Proof.
  intros w st. unfold load_data.
  split_and!; [intros ->| intros -> | intros projects -> | intros companies ->];
    done.
Qed.

Lemma has_columns_true required cols :
  has_columns required cols = true ↔ ∀ col, col ∈ required → col ∈ cols.
Proof.
  unfold has_columns. rewrite forallb_elem_of.
  split; intros H col Hcol; apply column_present, H, Hcol.
Qed.

(** X4: the header check asks for each required column to be somewhere
    in the header: a header passes exactly when it holds every required
    name, so extra columns, repeated columns and the order of the
    columns do not matter. *)
Theorem header_check_membership_only :
  ∀ (required cols cols' : list string),
    (has_columns required cols = true ↔ ∀ col, col ∈ required → col ∈ cols)
    ∧ ((∀ col, col ∈ cols → col ∈ cols') →
       has_columns required cols = true → has_columns required cols' = true).
Proof.
  intros required cols cols'. split; [apply has_columns_true|].
  rewrite !has_columns_true. intros Hsub H col Hcol. by apply Hsub, H.
Qed.

Lemma quiet_process_sheets w companies projects :
  quiet (process_sheets w companies projects).
Proof.
  intros st. rewrite process_sheets_run.
  apply (quiet_bind (radius_block w companies) (λ _, toggles w companies)).
  - apply quiet_radius_block.
  - intros _ st'. apply toggles_returns.
Qed.

Lemma load_data_shown w st companies_df projects_df :
  uploaded_file w = Some (Workbook (Some companies_df) (Some projects_df)) →
  shown_of (load_data w st)
  = if negb (has_columns required_cols (columns companies_df))
    then [ErrorCompaniesColumns]
    else if negb (has_columns required_project_cols (columns projects_df))
    then [ErrorProjectsColumns]
    else match outcome_of (process_sheets w (rows companies_df)
                             (rows projects_df) st) with
         | Returns _ => []
         | Raises e => [ErrorLoadingFile e]
         end.
Proof.
  intros Hfile. unfold load_data, try_except, load_body. rewrite Hfile.
  cbn [ExcelFile]. rewrite run_ret_then. cbn [fst snd read_excel].
  rewrite !run_ret_then.
  destruct (negb (has_columns required_cols _)); [done|].
  destruct (negb (has_columns required_project_cols _)); [done|].
  pose proof (quiet_process_sheets w (rows companies_df) (rows projects_df) st)
    as Hquiet.
  destruct (process_sheets w _ _ st) as [[st1 out1] [[]|e]];
    cbn in Hquiet; by subst out1.
Qed.

(** X5: for a workbook with both sheets the two validation errors are
    shown exactly when a required column is missing: the error of the
    Companies sheet exactly when its header is incomplete, the error of
    the Projects sheet exactly when the Companies header is complete and
    the Projects header is not.  Whatever happens in the body of the
    [try], the load block itself ends normally. *)
Theorem complete_headers_no_validation_error :
  ∀ (w : Widgets) (st : SessionState)
    (companies_df : DataFrame CompanyRow) (projects_df : DataFrame ProjectRow),
    uploaded_file w = Some (Workbook (Some companies_df) (Some projects_df)) →
    outcome_of (load_data w st) = Returns tt
    ∧ (ErrorCompaniesColumns ∈ shown_of (load_data w st)
       ↔ has_columns required_cols (columns companies_df) = false)
    ∧ (ErrorProjectsColumns ∈ shown_of (load_data w st)
       ↔ has_columns required_cols (columns companies_df) = true
         ∧ has_columns required_project_cols (columns projects_df) = false).
Proof.
  intros w st companies_df projects_df Hfile.
  split; [unfold load_data; rewrite Hfile; apply try_except_returns|].
  rewrite (load_data_shown w st companies_df projects_df Hfile).
  destruct (has_columns required_cols (columns companies_df));
    destruct (has_columns required_project_cols (columns projects_df));
    cbn [negb];
    try destruct (outcome_of (process_sheets w _ _ st)) as [[]|e];
    rewrite ?list_elem_of_singleton, ?elem_of_nil;
    split; split; try done; intros [? ?]; done.
Qed.

(** ** Project check boxes and deletions *)

Section DictDeletion.
Context {V : Type}.
Implicit Types (d : list (string * V)) (k : string).

Lemma dict_get_del k k' d :
  dict_wf d →
  dict_get k' (dict_del k d)
  = if bool_decide (k = k') then None else dict_get k' d.
Proof.
  unfold dict_wf. induction d as [|[k0 v0] d IH]; simpl; intros Hwf.
  - by case_bool_decide.
  - apply NoDup_cons in Hwf as [Hk0 Hwf].
    destruct (String.eqb_spec k0 k) as [->|Hne].
    + case_bool_decide as Hk.
      * subst k'. by apply dict_get_None.
      * by destruct (String.eqb_spec k k').
    + simpl. destruct (String.eqb_spec k0 k') as [->|Hne'].
      * by rewrite bool_decide_eq_false_2 by congruence.
      * by apply IH.
Qed.

Lemma dict_keys_del_filter k d :
  dict_wf d →
  dict_keys (dict_del k d) = List.filter (λ x, negb (String.eqb x k)) (dict_keys d).
Proof.
  unfold dict_wf. induction d as [|[k0 v0] d IH]; simpl; intros Hwf; [done|].
  apply NoDup_cons in Hwf as [Hk0 Hwf].
  destruct (String.eqb_spec k0 k) as [->|Hne]; simpl.
  - symmetry. apply forallb_filter_id. apply forallb_elem_of.
    intros x Hx. apply negb_true_iff, String.eqb_neq. intros ->. done.
  - by rewrite IH.
Qed.

Lemma fold_dict_del_get (names : list string) k d :
  dict_wf d →
  dict_get k (foldl (λ d name, dict_del name d) d names)
  = if bool_decide (k ∈ names) then None else dict_get k d.
Proof.
  revert d. induction names as [|name names IH]; intros d Hwf; cbn [foldl].
  - rewrite bool_decide_eq_false_2; [done | apply not_elem_of_nil].
  - rewrite IH by by apply dict_wf_del. rewrite dict_get_del by done.
    case_bool_decide as Hin.
    + rewrite bool_decide_eq_true_2; [done | by apply list_elem_of_further].
    + case_bool_decide as Hk.
      * rewrite bool_decide_eq_true_2; [done | subst; apply list_elem_of_here].
      * rewrite bool_decide_eq_false_2; [done|].
        apply not_elem_of_cons. split; [congruence | done].
Qed.

Lemma filter_filter_and {A} (f g : A → bool) (l : list A) :
  List.filter f (List.filter g l) = List.filter (λ x, g x && f x) l.
Proof.
  induction l as [|x l IH]; simpl; [done|].
  destruct (g x); simpl; [destruct (f x)|]; by rewrite IH.
Qed.

Lemma fold_dict_del_keys (names : list string) d :
  dict_wf d →
  dict_keys (foldl (λ d name, dict_del name d) d names)
  = List.filter (λ x, negb (bool_decide (x ∈ names))) (dict_keys d).
Proof.
  revert d. induction names as [|name names IH]; intros d Hwf; cbn [foldl].
  - symmetry. apply forallb_filter_id. apply forallb_elem_of.
    intros x _. apply negb_true_iff, bool_decide_eq_false_2, not_elem_of_nil.
  - rewrite IH by by apply dict_wf_del. rewrite dict_keys_del_filter by done.
    rewrite filter_filter_and. apply filter_ext. intros x.
    destruct (String.eqb_spec x name) as [->|Hne]; simpl.
    + by rewrite bool_decide_eq_true_2 by apply list_elem_of_here.
    + f_equal. apply bool_decide_ext.
      rewrite elem_of_cons. split; [by right | by intros [?|?]].
Qed.

End DictDeletion.

Lemma fold_set_visible_get (g : string * Site → bool) items sites k :
  dict_wf items →
  dict_get k (foldl (λ d item, set_visible item.1 (g item) d) sites items)
  = match dict_get k items with
    | Some s => with_visible (g (k, s)) <$> dict_get k sites
    | None => dict_get k sites
    end.
Proof.
  unfold dict_wf. revert sites.
  induction items as [|[k0 s0] items IH]; intros sites Hwf; simpl; [done|].
  apply NoDup_cons in Hwf as [Hk0 Hwf].
  rewrite IH by done. unfold set_visible. rewrite dict_get_update.
  destruct (String.eqb_spec k0 k) as [->|Hne].
  - rewrite bool_decide_eq_true_2 by done.
    cbn in Hk0. by rewrite (proj2 (dict_get_None k items) Hk0).
  - rewrite bool_decide_eq_false_2 by done. done.
Qed.

Lemma to_delete_pressed w (sites : list (string * Site)) name :
  name ∈ dict_keys sites →
  name ∈ map fst (List.filter (λ item, button w ("remove_" +:+ item.1)) sites)
  ↔ button w ("remove_" +:+ name) = true.
Proof.
  intros Hname. rewrite list_elem_of_fmap. split.
  - intros ([k s] & -> & Hin). apply list_elem_of_In, filter_In in Hin. tauto.
  - intros Hpressed. apply list_elem_of_fmap in Hname as ([k s] & -> & Hin).
    exists (k, s). split; [done|]. apply list_elem_of_In, filter_In.
    split; [by apply list_elem_of_In | done].
Qed.

(** X6: the project side bar (lines 74-82) on a dict of projects: a
    project whose delete button is pressed is gone afterwards; every
    other project keeps its place and its coordinates and takes the
    value of its check box as its flag; nothing else appears. *)
Theorem manage_project_sites_effect :
  ∀ (w : Widgets) (sites : list (string * Site)),
    dict_wf sites →
    (∀ name s, (name, s) ∈ sites →
       dict_get name (manage_project_sites w sites)
       = if button w ("remove_" +:+ name) then None
         else Some {| lat := lat s; lon := lon s;
                      visible := checkbox w ("proj_" +:+ name) (visible s) |})
    ∧ dict_keys (manage_project_sites w sites)
      = List.filter (λ name, negb (button w ("remove_" +:+ name))) (dict_keys sites).
Proof.
  intros w sites Hwf. unfold manage_project_sites.
  set (g := λ item : string * Site,
              checkbox w ("proj_" +:+ item.1) (visible item.2)).
  assert (dict_wf (foldl (λ d item, set_visible item.1 (g item) d) sites sites))
    as Hwf'.
  { unfold dict_wf. by rewrite (fold_set_visible_keys g). }
  split.
  - intros name s Hin.
    rewrite fold_dict_del_get by done.
    assert (name ∈ dict_keys sites) as Hname.
    { apply list_elem_of_fmap. by exists (name, s). }
    destruct (button w ("remove_" +:+ name)) eqn:Hpressed.
    + rewrite bool_decide_eq_true_2; [done | by apply to_delete_pressed].
    + rewrite bool_decide_eq_false_2.
      * rewrite (fold_set_visible_get g) by done.
        by rewrite (dict_get_elem name s) by done.
      * rewrite to_delete_pressed by done. congruence.
  - rewrite fold_dict_del_keys by done. rewrite (fold_set_visible_keys g).
    apply filter_ext_in. intros name Hname%list_elem_of_In. f_equal.
    destruct (button w ("remove_" +:+ name)) eqn:Hpressed.
    + apply bool_decide_eq_true_2. by apply to_delete_pressed.
    + apply bool_decide_eq_false_2. rewrite to_delete_pressed by done. congruence.
Qed.

(** ** Seeding the companies *)

Lemma seed_companies_all companies st c :
  c ∈ all_competitors (seed_companies companies st)
  ↔ c ∈ all_competitors st ∨ c ∈ map Company_Location companies.
Proof.
  unfold seed_companies. revert st.
  induction companies as [|row companies IH]; intros st; cbn [foldl map].
  - split; [by left | intros [?|?%elem_of_nil]; done].
  - rewrite IH. rewrite elem_of_cons.
    assert (all_competitors (seed_company st row)
            = {[Company_Location row]} ∪ all_competitors st) as ->.
    { unfold seed_company. cbn. by destruct (_ !! _). }
    rewrite elem_of_union, elem_of_singleton. tauto.
Qed.

Lemma seed_companies_last_radius companies st :
  last_radius (seed_companies companies st) = last_radius st.
Proof.
  unfold seed_companies. revert st.
  induction companies as [|row companies IH]; intros st; simpl; [done|].
  rewrite IH. unfold seed_company. cbn. by destruct (_ !! _).
Qed.

(** X7: seeding the companies (lines 84-88) never changes a flag that is
    already there, so loading a sheet again does not undo what the user
    has hidden; it touches no other location, adds exactly the locations
    of the sheet to [all_competitors], and leaves the projects and the
    last applied radius alone. *)
Theorem seed_companies_keeps_flags :
  ∀ (companies : list CompanyRow) (st : SessionState),
    (∀ c b, competitor_visibility st !! c = Some b →
            competitor_visibility (seed_companies companies st) !! c = Some b)
    ∧ (∀ c, c ∉ map Company_Location companies →
            competitor_visibility (seed_companies companies st) !! c
            = competitor_visibility st !! c)
    ∧ (∀ c, c ∈ all_competitors (seed_companies companies st)
            ↔ c ∈ all_competitors st ∨ c ∈ map Company_Location companies)
    ∧ project_sites (seed_companies companies st) = project_sites st
    ∧ last_radius (seed_companies companies st) = last_radius st.
Proof.
  intros companies st. split_and!.
  - intros c b Hc. rewrite seed_companies_lookup. unfold get_visibility.
    rewrite Hc. by case_bool_decide.
  - intros c Hc. rewrite seed_companies_lookup. by rewrite bool_decide_eq_false_2.
  - intros c. apply seed_companies_all.
  - apply seed_companies_sites.
  - apply seed_companies_last_radius.
Qed.

(** ** Two more invariants of a re-run *)

#[local] Instance keeps_flagged_preorder : PreOrder keeps_flagged.
Proof. split; unfold keeps_flagged; [intros st | intros st1 st2 st3]; tauto. Qed.

#[local] Instance keeps_competitors_preorder : PreOrder keeps_competitors.
Proof.
  split; unfold keeps_competitors.
  - intros st. done.
  - intros st1 st2 st3 H12 H23. etrans; eassumption.
Qed.

Lemma global_toggle_all w st :
  all_competitors (global_toggle w st) = all_competitors st.
Proof. unfold global_toggle. by destruct (button w _). Qed.

Lemma seed_companies_flagged companies st :
  competitors_flagged st → competitors_flagged (seed_companies companies st).
Proof.
  unfold competitors_flagged. intros Hst c [Hc|Hc]%seed_companies_all.
  - by apply seed_companies_dom, Hst.
  - apply elem_of_dom. rewrite seed_companies_lookup.
    by rewrite bool_decide_eq_true_2.
Qed.

Lemma rerun_keeps_flagged w : preserves keeps_flagged (rerun w).
Proof.
  apply (rerun_preserves keeps_flagged);
    unfold keeps_flagged, competitors_flagged; cbn; try done.
  - apply seed_companies_flagged.
  - intros c b st Hst. rewrite dom_insert_L. set_solver.
  - intros w' st Hst. rewrite global_toggle_all.
    etrans; [exact Hst | apply global_toggle_dom].
  - intros w' companies st Hst.
    etrans; [exact Hst | apply company_toggles_dom].
Qed.

Lemma rerun_keeps_competitors w : preserves keeps_competitors (rerun w).
Proof.
  apply (rerun_preserves keeps_competitors);
    unfold keeps_competitors; cbn; try done.
  - intros companies st c Hc. apply seed_companies_all. by left.
  - intros w' st. by rewrite global_toggle_all.
Qed.

(** X8: no re-run, however it ends, takes a location out of
    [all_competitors], and if every location of [all_competitors] has a
    flag before a re-run then so it is after it.  In a session that
    started fresh the global button therefore never meets a location
    without a flag. *)
Theorem competitors_stay_flagged :
  ∀ (w : Widgets) (st : SessionState),
    competitors_flagged initial_state
    ∧ all_competitors st ⊆ all_competitors (state_of (rerun w st))
    ∧ (competitors_flagged st → competitors_flagged (state_of (rerun w st))).
Proof.
  intros w st. split_and!.
  - unfold competitors_flagged. cbn. set_solver.
  - apply (rerun_keeps_competitors w st).
  - apply (rerun_keeps_flagged w st).
Qed.

(** ** When the radius block writes *)

Lemma radius_block_idle w companies st :
  selected_project (mode w) (project_sites st) = None
  ∨ radius_manual w = last_radius st →
  state_of (radius_block w companies st) = st.
Proof.
  intros Hidle. unfold radius_block. rewrite run_gets_then.
  destruct (selected_project (mode w) (project_sites st)) as [[name site]|];
    [|done].
  destruct Hidle as [|Hsame]; [done|].
  rewrite run_bind.
  match goal with |- context [map_M ?f companies st] =>
    destruct (silent_map_M f companies
                (λ row, silent_haversine_py _ _ _ _) st) as [Hst Hout];
    destruct (map_M f companies st) as [[st1 out1] [distances|e]]
  end; cbn in Hst, Hout; subst st1 out1; [|done].
  rewrite run_gets_then, Hsame, Rneqb_refl. done.
Qed.

(** X9: the radius block changes the session state only when all three
    conditions of the recompute hold: the mode is "Companies Within
    Radius of Project", some project is visible, and the requested
    radius differs from the last applied one.  In "All Companies with
    Radius" mode in particular no flag and no [last_radius] is ever
    written by it. *)
Theorem radius_block_writes_only_on_trigger :
  ∀ (w : Widgets) (companies : list CompanyRow) (st : SessionState),
    state_of (radius_block w companies st) ≠ st →
    mode w = CompaniesWithinRadiusOfProject
    ∧ visible_projects (project_sites st) ≠ []
    ∧ radius_manual w ≠ last_radius st.
Proof.
  intros w companies st Hchanged.
  assert (selected_project (mode w) (project_sites st) ≠ None) as Hsel.
  { intros Hnone. apply Hchanged, radius_block_idle. by left. }
  split_and!.
  - unfold selected_project in Hsel. by destruct (mode w).
  - unfold selected_project in Hsel. intros Hnone. rewrite Hnone in Hsel.
    by destruct (mode w).
  - intros Hsame. apply Hchanged, radius_block_idle. by right.
Qed.

Lemma on_return_bind {A B} Q (m : M A) (k : A → M B) :
  (∀ a, on_return Q (k a)) → on_return Q (bind m k).
Proof.
  intros Hk st st' out b. rewrite run_bind.
  destruct (m st) as [[st1 out1] [a|e]]; [|done].
  intros [= <- _ Hout]. apply (Hk a st1 _ (shown_of (k a st1)) b).
  rewrite <- Hout. symmetry. apply run_eta.
Qed.

Lemma recompute_sets_last_radius r plat plon cds :
  on_return (λ st, last_radius st = r) (recompute r plat plon cds).
Proof.
  unfold recompute.
  apply on_return_bind. intros _. apply on_return_bind. intros sites.
  apply on_return_bind. intros _. by intros st st' out a [= <- _ _].
Qed.

(** X10: a radius block that has returned has nothing left to do: run
    again with the same widgets on the state it left, it changes
    nothing.  A recompute is applied once per change of the radius. *)
Theorem radius_block_settles :
  ∀ (w : Widgets) (companies : list CompanyRow) (st : SessionState)
    (selected : option string),
    outcome_of (radius_block w companies st) = Returns selected →
    state_of (radius_block w companies
                (state_of (radius_block w companies st)))
    = state_of (radius_block w companies st).
Proof.
  intros w companies st selected Hret.
  destruct (selected_project (mode w) (project_sites st)) as [[name site]|] eqn:Hsel.
  2: { rewrite (radius_block_idle w companies st) by by left.
       apply radius_block_idle. by left. }
  destruct (Req_dec_T (radius_manual w) (last_radius st)) as [Hsame|Hne].
  { rewrite (radius_block_idle w companies st) by by right.
    apply radius_block_idle. by right. }
  apply radius_block_idle. right.
  revert Hret. unfold radius_block. rewrite run_gets_then, Hsel, run_bind.
  match goal with |- context [map_M ?f companies st] =>
    destruct (silent_map_M f companies
                (λ row, silent_haversine_py _ _ _ _) st) as [Hst Hout];
    destruct (map_M f companies st) as [[st1 out1] [distances|e]]
  end; cbn in Hst, Hout; subst st1 out1; [|done].
  rewrite run_gets_then, Rneqb_ne, run_bind by done.
  destruct (recompute _ _ _ _ st) as [[st2 out2] [[]|e]] eqn:Hrun; [|done].
  intros _. cbn. symmetry.
  apply (recompute_sets_last_radius _ _ _ _ _ _ _ _ Hrun).
Qed.

Lemma visible_projects_elem sites item :
  item ∈ visible_projects sites → item ∈ sites ∧ visible item.2 = true.
Proof.
  unfold visible_projects. intros Hin%list_elem_of_In%filter_In.
  split; [apply list_elem_of_In|]; tauto.
Qed.

(** X11: a recompute with a radius that is not negative keeps the
    reference project visible, at its coordinates: its distance to
    itself is 0. *)
Theorem reference_project_stays_visible :
  ∀ (w : Widgets) (companies : list CompanyRow) (st : SessionState)
    (name : string) (ref : Site) (rest : list (string * Site)) (plat plon : R),
    mode w = CompaniesWithinRadiusOfProject →
    visible_projects (project_sites st) = (name, ref) :: rest →
    lat ref = CNum plat → lon ref = CNum plon →
    radius_manual w ≠ last_radius st →
    (0 <= radius_manual w)%R →
    dict_wf (project_sites st) →
    Forall numeric_row companies →
    Forall (λ item, numeric_site item.2) (project_sites st) →
    dict_get name (project_sites (state_of (radius_block w companies st)))
    = Some {| lat := CNum plat; lon := CNum plon; visible := true |}.
Proof.
  intros w companies st name ref rest plat plon
    Hmode Hvis Hlat Hlon Hne Hpos Hwf Hrows Hsites.
  rewrite (radius_block_recomputes w companies st name ref rest plat plon)
    by done.
  cbn. rewrite flag_projects_get by done.
  assert ((name, ref) ∈ project_sites st) as Hin.
  { apply (visible_projects_elem _ (name, ref)). rewrite Hvis.
    apply list_elem_of_here. }
  rewrite (dict_get_elem name ref) by done. cbn.
  unfold with_visible. rewrite Hlat, Hlon. cbn.
  rewrite haversine_refl. do 2 f_equal. by apply Rleb_le.
Qed.

Lemma haversine_py_returns a b la lo st st1 out d :
  haversine_py a b la lo st = (st1, out, Returns d) →
  is_Some (number_in la) ∧ is_Some (number_in lo).
Proof. destruct a, b, la, lo; cbn; intros [=]; split; by eexists. Qed.

Lemma map_M_returns_numeric a b companies st st1 out ds :
  map_M (λ row, haversine_py a b (c_Latitude row) (c_Longitude row)) companies st
  = (st1, out, Returns ds) →
  Forall numeric_row companies.
Proof.
  revert st st1 out ds.
  induction companies as [|row companies IH]; intros st st1 out ds;
    cbn [map_M]; [by constructor|].
  rewrite run_bind.
  destruct (haversine_py a b _ _ st) as [[st2 out2] [d|e]] eqn:Hrow; [|done].
  rewrite run_bind. cbn [state_of shown_of outcome_of fst snd].
  destruct (map_M _ companies st2) as [[st3 out3] [ds'|e]] eqn:Hrest; [|done].
  intros _. constructor.
  - by apply haversine_py_returns in Hrow.
  - by apply IH in Hrest.
Qed.

(** X12: when a reference project is chosen and some row of the
    Companies sheet has a text for its latitude or longitude, the radius
    block raises before it writes anything: the distance column is
    computed for all rows first, so no flag, no project and no
    [last_radius] has changed. *)
Theorem text_coordinate_stops_before_writing :
  ∀ (w : Widgets) (companies : list CompanyRow) (st : SessionState)
    (item : string * Site) (row : CompanyRow),
    selected_project (mode w) (project_sites st) = Some item →
    row ∈ companies →
    (∃ s, c_Latitude row = CText s) ∨ (∃ s, c_Longitude row = CText s) →
    ∃ e, radius_block w companies st = (st, [], Raises e).
Proof.
  intros w companies st [name site] row Hsel Hrow Htext.
  unfold radius_block. rewrite run_gets_then, Hsel, run_bind.
  match goal with |- context [map_M ?f companies st] =>
    destruct (silent_map_M f companies
                (λ row, silent_haversine_py _ _ _ _) st) as [Hst Hout];
    destruct (map_M f companies st) as [[st1 out1] [distances|e]] eqn:Hrun
  end; cbn in Hst, Hout; subst st1 out1.
  - apply map_M_returns_numeric in Hrun.
    rewrite Forall_forall in Hrun.
    destruct (Hrun row Hrow) as [[x Hx] [y Hy]].
    destruct Htext as [[s Hs]|[s Hs]]; [rewrite Hs in Hx | rewrite Hs in Hy];
      discriminate.
  - by exists e.
Qed.

#[local] Instance keeps_last_radius_preorder : PreOrder keeps_last_radius.
Proof.
  split; unfold keeps_last_radius; [intros st | intros st1 st2 st3]; congruence.
Qed.

Lemma recompute_raises_last_radius r plat plon cds st st' out e :
  recompute r plat plon cds st = (st', out, Raises e) →
  last_radius st' = last_radius st.
Proof.
  unfold recompute. rewrite run_bind, run_flag_companies.
  cbn [state_of shown_of outcome_of fst snd app].
  rewrite run_gets_then, run_bind.
  set (st1 := set_competitor_visibility (flag_companies r cds) st).
  match goal with |- context [for_each ?items ?body st1] =>
    assert (preserves keeps_last_radius (for_each items body)) as Hloop
  end.
  { apply (preserves_for_each keeps_last_radius). intros item.
    apply (preserves_bind keeps_last_radius).
    - apply (preserves_haversine_py keeps_last_radius).
    - intros dist. by apply (preserves_modify keeps_last_radius). }
  specialize (Hloop st1). unfold keeps_last_radius in Hloop.
  destruct (for_each _ _ st1) as [[st2 out2] [[]|e2]]; [done|].
  intros [= <- _ _]. by rewrite <- Hloop.
Qed.

Lemma radius_block_keeps_all_competitors w companies st :
  all_competitors (state_of (radius_block w companies st)) = all_competitors st.
Proof.
  assert (preserves (λ st st', all_competitors st = all_competitors st')
            (radius_block w companies)) as Hkeeps.
  { apply radius_block_preserves;
      [split; [intros ? | intros ? ? ?]; congruence | done..]. }
  symmetry. apply (Hkeeps st).
Qed.

(** X13: a radius block that raises leaves [last_radius] as it was, so
    the next re-run tries the recompute again; it also leaves the names
    and the order of the projects and [all_competitors] as they were. *)
Theorem failed_recompute_is_retried :
  ∀ (w : Widgets) (companies : list CompanyRow) (st : SessionState) (e : exn),
    outcome_of (radius_block w companies st) = Raises e →
    last_radius (state_of (radius_block w companies st)) = last_radius st
    ∧ dict_keys (project_sites (state_of (radius_block w companies st)))
      = dict_keys (project_sites st)
    ∧ all_competitors (state_of (radius_block w companies st))
      = all_competitors st.
Proof.
  intros w companies st e Hraise. split_and!.
  - revert Hraise. unfold radius_block. rewrite run_gets_then.
    destruct (selected_project (mode w) (project_sites st)) as [[name site]|];
      [|done].
    rewrite run_bind.
    match goal with |- context [map_M ?f companies st] =>
      destruct (silent_map_M f companies
                  (λ row, silent_haversine_py _ _ _ _) st) as [Hst Hout];
      destruct (map_M f companies st) as [[st1 out1] [distances|e1]]
    end; cbn in Hst, Hout; subst st1 out1; [|done].
    rewrite run_gets_then, run_bind.
    destruct (Rneqb (radius_manual w) (last_radius st)); [|done].
    destruct (recompute _ _ _ _ st) as [[st2 out2] [[]|e2]] eqn:Hrun; [done|].
    intros _. cbn. by apply recompute_raises_last_radius in Hrun.
  - symmetry. apply (radius_block_keeps_project_names w companies st).
  - apply radius_block_keeps_all_competitors.
Qed.

(** ** The rows that are drawn *)

Lemma visible_competitors_spec (vis : gmap string bool) c :
  c ∈ visible_competitors vis ↔ vis !! c = Some true.
Proof.
  unfold visible_competitors. rewrite list_elem_of_fmap. split.
  - intros ([k b] & -> & Hin). apply list_elem_of_In, filter_In in Hin as [Hin Hb].
    cbn in Hb. subst b. by apply elem_of_map_to_list, list_elem_of_In.
  - intros Hc. exists (c, true). split; [done|].
    apply list_elem_of_In, filter_In. split; [|done].
    by apply list_elem_of_In, elem_of_map_to_list.
Qed.

Lemma visible_df_spec companies (vis : gmap string bool) row :
  row ∈ visible_df companies vis
  ↔ row ∈ companies ∧ vis !! Company_Location row = Some true.
Proof.
  unfold visible_df. rewrite list_elem_of_In, filter_In, <- list_elem_of_In.
  by rewrite bool_decide_eq_true, visible_competitors_spec.
Qed.

Lemma visible_df_sublist companies (vis : gmap string bool) :
  sublist (visible_df companies vis) companies.
Proof.
  unfold visible_df. induction companies as [|row companies IH]; simpl.
  - constructor.
  - destruct (bool_decide _); [by apply sublist_skip | by apply sublist_cons].
Qed.

(** X14: after a recompute on a sheet whose locations are all different,
    the rows handed to the map (lines 110-111) are exactly the rows of
    the sheet within the radius of the reference project, in sheet
    order. *)
Theorem rows_drawn_after_recompute :
  ∀ (w : Widgets) (companies : list CompanyRow) (st : SessionState)
    (name : string) (ref : Site) (rest : list (string * Site)) (plat plon : R),
    mode w = CompaniesWithinRadiusOfProject →
    visible_projects (project_sites st) = (name, ref) :: rest →
    lat ref = CNum plat → lon ref = CNum plon →
    radius_manual w ≠ last_radius st →
    NoDup (map Company_Location companies) →
    Forall numeric_row companies →
    Forall (λ item, numeric_site item.2) (project_sites st) →
    let drawn :=
      visible_df companies
        (competitor_visibility (state_of (radius_block w companies st))) in
    (∀ row la lo,
       c_Latitude row = CNum la → c_Longitude row = CNum lo →
       row ∈ drawn
       ↔ row ∈ companies
         ∧ (Distance.haversine plat plon la lo <= radius_manual w)%R)
    ∧ sublist drawn companies.
Proof.
  intros w companies st name ref rest plat plon
    Hmode Hvis Hlat Hlon Hne Hnodup Hrows Hsites. cbv zeta. split.
  - intros row la lo Hla Hlo. rewrite visible_df_spec.
    split; intros [Hin H]; (split; [done|]).
    + apply list_elem_of_split in Hin as (l1 & l2 & ->).
      rewrite (radius_block_recomputes w (l1 ++ row :: l2) st name ref rest
                 plat plon) in H by done.
      cbn in H. rewrite map_app in H. cbn [map] in H.
      rewrite (flag_companies_last (radius_manual w) _
                 (row, distance_from plat plon (c_Latitude row) (c_Longitude row)))
        in H.
      * injection H as H. apply Rleb_le in H. by rewrite Hla, Hlo in H.
      * cbn [fst]. rewrite map_map.
        rewrite map_app in Hnodup. cbn [map] in Hnodup.
        apply NoDup_app in Hnodup as (_ & _ & Hnodup).
        by apply NoDup_cons in Hnodup as [? _].
    + apply list_elem_of_split in Hin as (l1 & l2 & ->).
      rewrite (radius_block_recomputes w (l1 ++ row :: l2) st name ref rest
                 plat plon) by done.
      cbn. rewrite map_app. cbn [map].
      rewrite (flag_companies_last (radius_manual w) _
                 (row, distance_from plat plon (c_Latitude row) (c_Longitude row))).
      * cbn [snd]. rewrite Hla, Hlo. f_equal. by apply Rleb_le.
      * cbn [fst]. rewrite map_map.
        rewrite map_app in Hnodup. cbn [map] in Hnodup.
        apply NoDup_app in Hnodup as (_ & _ & Hnodup).
        by apply NoDup_cons in Hnodup as [? _].
  - apply visible_df_sublist.
Qed.

(** ** The bulk toggles once more *)

Lemma get_visibility_set_all members b (vis : gmap string bool) c :
  get_visibility (set_all members b vis) c
  = if bool_decide (c ∈ members) then b else get_visibility vis c.
Proof.
  unfold get_visibility. rewrite set_all_lookup. by case_bool_decide.
Qed.

Lemma forallb_const_nonempty {A} (l : list A) (b : bool) :
  l ≠ [] → forallb (λ _, b) l = b.
Proof.
  destruct l as [|x l]; [done|]. intros _.
  destruct b; simpl; [|done]. induction l; simpl; auto.
Qed.

Lemma forallb_ext_elem {A} (f g : A → bool) (l : list A) :
  (∀ x, x ∈ l → f x = g x) → forallb f l = forallb g l.
Proof.
  induction l as [|x l IH]; intros Hfg; simpl; [done|].
  rewrite (Hfg x) by apply list_elem_of_here.
  rewrite IH; [done|]. intros y Hy. by apply Hfg, list_elem_of_further.
Qed.

(** X15: pressing a bulk button turns the answer to "are all members
    visible?" around, provided the group has a member: after "Select
    All" all members are visible and the button reads "Deselect All",
    and the other way round.  With no location known the global button
    reads "Deselect All" and pressing it changes no flag. *)
Theorem bulk_toggle_flips_aggregate :
  ∀ (w : Widgets) (st : SessionState)
    (company : string) (group : list CompanyRow) (vis : gmap string bool),
    (button w (if global_all_on st then "Deselect All" else "Select All") = true →
     all_competitors st ≠ ∅ →
     global_all_on (global_toggle w st) = negb (global_all_on st))
    ∧ (all_competitors st = ∅ →
       global_all_on st = true
       ∧ competitor_visibility (global_toggle w st) = competitor_visibility st)
    ∧ (button w ((if all_checked group vis then "Deselect All" else "Select All")
                 +:+ " (" +:+ company +:+ ")") = true →
       group ≠ [] →
       all_checked group (group_toggle w company group vis)
       = negb (all_checked group vis)).
Proof.
  intros w st company group vis. split_and!.
  - intros Hpressed Hne.
    unfold global_all_on at 1. rewrite global_toggle_all.
    unfold global_toggle. rewrite Hpressed. cbn.
    trans (forallb (λ _ : string, negb (global_all_on st))
             (elements (all_competitors st))).
    + apply forallb_ext_elem. intros c Hc.
      rewrite get_visibility_set_all. by rewrite bool_decide_eq_true_2.
    + apply forallb_const_nonempty.
      intros Hnil. apply Hne. apply leibniz_equiv. by apply elements_empty_iff.
  - intros Hempty. unfold global_all_on, global_toggle.
    rewrite Hempty, elements_empty. cbn. split; [done|].
    by destruct (button w _).
  - intros Hpressed Hne. unfold group_toggle. rewrite Hpressed.
    unfold all_checked at 1.
    trans (forallb (λ _ : CompanyRow, negb (all_checked group vis)) group).
    + apply forallb_ext_elem. intros row Hrow.
      rewrite get_visibility_set_all. rewrite bool_decide_eq_true_2; [done|].
      apply list_elem_of_fmap. by exists row.
    + by apply forallb_const_nonempty.
Qed.

(** ** Check box after button *)

Lemma fold_location_checkbox_frame w group (vis : gmap string bool) c :
  c ∉ map Company_Location group →
  foldl (location_checkbox w) vis group !! c = vis !! c.
Proof.
  revert vis. induction group as [|row group IH]; intros vis; cbn [foldl map];
    [done|].
  intros [Hne Hc]%not_elem_of_cons. rewrite IH by done.
  unfold location_checkbox. by rewrite lookup_insert_ne.
Qed.

Lemma fold_location_checkbox_lookup w group (vis : gmap string bool) row :
  NoDup (map Company_Location group) → row ∈ group →
  foldl (location_checkbox w) vis group !! Company_Location row
  = Some (checkbox w ("toggle_" +:+ Company_Location row)
            (get_visibility vis (Company_Location row))).
Proof.
  revert vis. induction group as [|r0 group IH]; intros vis Hnodup Hin;
    cbn [foldl map] in *; [by apply elem_of_nil in Hin|].
  apply NoDup_cons in Hnodup as [Hr0 Hnodup].
  apply elem_of_cons in Hin as [->|Hin].
  - rewrite fold_location_checkbox_frame by done.
    unfold location_checkbox. apply lookup_insert_eq.
  - rewrite IH by done. do 2 f_equal.
    unfold location_checkbox, get_visibility. rewrite lookup_insert_ne; [done|].
    intros Heq. apply Hr0. rewrite Heq. apply list_elem_of_fmap. by exists row.
Qed.

(** X16: in a group whose locations are all different the check box of
    a location has the last word: its flag after lines 139-153 is what
    its check box returns, and the check box was offered the flag the
    group button had just written if the button was pressed, the flag
    the location had before otherwise.  Locations outside the group are
    not touched. *)
Theorem checkbox_has_last_word :
  ∀ (w : Widgets) (company : string) (group : list CompanyRow)
    (vis : gmap string bool),
    NoDup (map Company_Location group) →
    (∀ row, row ∈ group →
       group_block w vis (company, group) !! Company_Location row
       = Some (checkbox w ("toggle_" +:+ Company_Location row)
                 (if button w ((if all_checked group vis
                                then "Deselect All" else "Select All")
                               +:+ " (" +:+ company +:+ ")")
                  then negb (all_checked group vis)
                  else get_visibility vis (Company_Location row))))
    ∧ (∀ c, c ∉ map Company_Location group →
         group_block w vis (company, group) !! c = vis !! c).
Proof.
  intros w company group vis Hnodup. unfold group_block. cbn [fst snd]. split.
  - intros row Hrow. rewrite fold_location_checkbox_lookup by done.
    do 2 f_equal. unfold group_toggle.
    destruct (button w _); [|done].
    rewrite get_visibility_set_all. rewrite bool_decide_eq_true_2; [done|].
    apply list_elem_of_fmap. by exists row.
  - intros c Hc. rewrite fold_location_checkbox_frame by done.
    unfold group_toggle. destruct (button w _); [|done].
    rewrite set_all_lookup. by rewrite bool_decide_eq_false_2.
Qed.

(** ** A re-run in which the user does nothing *)

Lemma dict_update_id {V} (f : V → V) k (d : list (string * V)) :
  (∀ v, dict_get k d = Some v → f v = v) → dict_update f k d = d.
Proof.
  induction d as [|[k0 v0] d IH]; simpl; [done|].
  destruct (String.eqb_spec k0 k) as [->|Hne]; intros Hf.
  - by rewrite Hf.
  - by rewrite IH.
Qed.

Lemma fold_set_visible_idle (g : string * Site → bool) items sites :
  (∀ item, item ∈ items →
     dict_get item.1 sites = Some item.2 ∧ g item = visible item.2) →
  foldl (λ d item, set_visible item.1 (g item) d) sites items = sites.
Proof.
  induction items as [|item items IH]; intros Hitems; cbn [foldl]; [done|].
  destruct (Hitems item) as [Hget Hg]; [apply list_elem_of_here|].
  unfold set_visible at 2. rewrite dict_update_id.
  - apply IH. intros item' Hin. by apply Hitems, list_elem_of_further.
  - intros s. rewrite Hget, Hg. intros [= <-]. by destruct item.2.
Qed.

Lemma filter_none {A} (f : A → bool) (l : list A) :
  (∀ x, f x = false) → List.filter f l = [].
Proof.
  intros Hf. induction l as [|x l IH]; simpl; [done|]. by rewrite Hf.
Qed.

Lemma manage_project_sites_idle w sites :
  dict_wf sites →
  (∀ label, button w label = false) →
  (∀ key value, checkbox w key value = value) →
  manage_project_sites w sites = sites.
Proof.
  intros Hwf Hbutton Hcheckbox. unfold manage_project_sites.
  rewrite filter_none by (intros item; apply Hbutton). cbn [map foldl].
  apply (fold_set_visible_idle
           (λ item, checkbox w ("proj_" +:+ item.1) (visible item.2))).
  intros [k s] Hin. split; [by apply dict_get_elem | apply Hcheckbox].
Qed.

Lemma seed_companies_idle companies st :
  (∀ row, row ∈ companies →
     Company_Location row ∈ all_competitors st
     ∧ is_Some (competitor_visibility st !! Company_Location row)) →
  seed_companies companies st = st.
Proof.
  unfold seed_companies.
  induction companies as [|row companies IH]; intros Hknown; cbn [foldl]; [done|].
  destruct (Hknown row) as [Hall [b Hb]]; [apply list_elem_of_here|].
  assert (seed_company st row = st) as ->.
  { unfold seed_company. cbn. rewrite Hb.
    unfold set_all_competitors. destruct st; cbn in *. f_equal.
    apply subseteq_union_1_L. by apply singleton_subseteq_l. }
  apply IH. intros row' Hin. by apply Hknown, list_elem_of_further.
Qed.

Lemma fold_location_checkbox_idle w group (vis : gmap string bool) :
  (∀ key value, checkbox w key value = value) →
  (∀ row, row ∈ group → is_Some (vis !! Company_Location row)) →
  foldl (location_checkbox w) vis group = vis.
Proof.
  intros Hcheckbox.
  induction group as [|row group IH]; intros Hknown; cbn [foldl]; [done|].
  destruct (Hknown row) as [b Hb]; [apply list_elem_of_here|].
  assert (location_checkbox w vis row = vis) as ->.
  { unfold location_checkbox. rewrite Hcheckbox. apply insert_id.
    unfold get_visibility. by rewrite Hb. }
  apply IH. intros row' Hin. by apply Hknown, list_elem_of_further.
Qed.

Lemma groupby_rows companies g row :
  g ∈ groupby_Company_Name companies → row ∈ g.2 → row ∈ companies.
Proof.
  unfold groupby_Company_Name. intros (k & -> & _)%list_elem_of_fmap. cbn.
  intros Hin%list_elem_of_In%filter_In. apply list_elem_of_In. tauto.
Qed.

Lemma company_toggles_idle w companies (vis : gmap string bool) :
  (∀ label, button w label = false) →
  (∀ key value, checkbox w key value = value) →
  (∀ row, row ∈ companies → is_Some (vis !! Company_Location row)) →
  company_toggles w companies vis = vis.
Proof.
  intros Hbutton Hcheckbox Hknown. unfold company_toggles.
  pose proof (groupby_rows companies) as Hrows.
  induction (groupby_Company_Name companies) as [|g groups IH]; cbn [foldl];
    [done|].
  assert (group_block w vis g = vis) as ->.
  { unfold group_block, group_toggle. rewrite Hbutton.
    apply fold_location_checkbox_idle; [done|].
    intros row Hrow. apply Hknown, (Hrows g); [apply list_elem_of_here | done]. }
  apply IH. intros g' row Hg'. apply Hrows. by apply list_elem_of_further.
Qed.

(** X17: a re-run in which the user does nothing changes nothing.  With
    a workbook with complete headers uploaded, no button pressed, every
    check box returning the value it was offered, and the radius block
    at rest (mode "All Companies with Radius", or the radius equal to the
    last applied one), a session that already holds some projects and
    knows every location of the sheet is left exactly as it was. *)
Theorem idle_rerun_changes_nothing :
  ∀ (w : Widgets) (st : SessionState)
    (companies_df : DataFrame CompanyRow) (projects_df : DataFrame ProjectRow),
    uploaded_file w = Some (Workbook (Some companies_df) (Some projects_df)) →
    has_columns required_cols (columns companies_df) = true →
    has_columns required_project_cols (columns projects_df) = true →
    (∀ label, button w label = false) →
    (∀ key value, checkbox w key value = value) →
    mode w = AllCompaniesWithRadius ∨ radius_manual w = last_radius st →
    project_sites st ≠ [] →
    dict_wf (project_sites st) →
    (∀ row, row ∈ rows companies_df →
       Company_Location row ∈ all_competitors st
       ∧ is_Some (competitor_visibility st !! Company_Location row)) →
    state_of (rerun w st) = st.
Proof.
  intros w st companies_df projects_df
    Hfile Hc Hp Hbutton Hcheckbox Hrest Hsome Hwf Hknown.
  rewrite rerun_state.
  assert (state_of (add_project w st) = st) as ->.
  { unfold add_project. by rewrite Hbutton. }
  unfold load_data. rewrite Hfile.
  rewrite try_except_state, load_body_valid, process_sheets_run by done.
  assert (seeded w (rows companies_df) (rows projects_df) st = st) as ->.
  { unfold seeded.
    assert (set_project_sites (seed_projects (rows projects_df)) st = st) as ->.
    { unfold set_project_sites, seed_projects. destruct st as [vis sites all r].
      cbn in *. by destruct sites. }
    assert (set_project_sites (manage_project_sites w) st = st) as ->.
    { unfold set_project_sites. rewrite manage_project_sites_idle by done.
      by destruct st. }
    by apply seed_companies_idle. }
  rewrite run_bind.
  assert (state_of (radius_block w (rows companies_df) st) = st) as Hidle.
  { apply radius_block_idle. destruct Hrest as [Hmode|Hsame]; [left | by right].
    unfold selected_project. by rewrite Hmode. }
  destruct (radius_block w (rows companies_df) st) as [[st1 out1] [selected|e]];
    cbn in Hidle; subst st1.
  - unfold toggles. rewrite run_modify_then. cbn.
    assert (global_toggle w st = st) as ->.
    { unfold global_toggle. by rewrite Hbutton. }
    unfold set_competitor_visibility.
    rewrite company_toggles_idle; [by destruct st | done | done |].
    intros row Hrow. by apply Hknown.
  - done.
Qed.

(** ** Palette slots *)

Lemma unique_elem (names : list string) x : x ∈ unique names ↔ x ∈ names.
Proof.
  induction names as [|n names IH]; simpl; [done|].
  rewrite !elem_of_cons, list_elem_of_In, filter_In, <- list_elem_of_In, IH.
  rewrite negb_true_iff, String.eqb_neq.
  destruct (decide (x = n)); tauto.
Qed.

Lemma NoDup_list_filter {A} (f : A → bool) (l : list A) :
  NoDup l → NoDup (List.filter f l).
Proof.
  induction 1 as [|x l Hx Hl IH]; simpl; [constructor|].
  destruct (f x); [|done]. constructor; [|done].
  intros Hin%list_elem_of_In%filter_In. apply Hx, list_elem_of_In. tauto.
Qed.

Lemma NoDup_unique (names : list string) : NoDup (unique names).
Proof.
  induction names as [|n names IH]; simpl; constructor.
  - intros Hin%list_elem_of_In%filter_In. destruct Hin as [_ Hn].
    by rewrite String.eqb_refl in Hn.
  - by apply NoDup_list_filter.
Qed.

Lemma ranked_keys {B} (f : nat → B) (l : list string) :
  dict_keys (imap (λ i x, (x, f i)) l) = l.
Proof.
  revert f. induction l as [|x l IH]; intros f; [done|].
  rewrite imap_cons. cbn. f_equal. apply (IH (f ∘ S)).
Qed.

Lemma ranked_get {B} (f : nat → B) (l : list string) name b :
  NoDup l →
  dict_get name (imap (λ i x, (x, f i)) l) = Some b
  ↔ ∃ i, l !! i = Some name ∧ b = f i.
Proof.
  intros Hnodup.
  assert (dict_wf (imap (λ i x, (x, f i)) l)) as Hwf.
  { unfold dict_wf. by rewrite ranked_keys. }
  split.
  - intros Hin%dict_get_Some_elem.
    apply elem_of_lookup_imap in Hin as (i & y & [= -> ->] & Hi). eauto.
  - intros (i & Hi & ->). apply dict_get_elem; [done|].
    apply elem_of_lookup_imap. eauto.
Qed.

(** X18: the colours of lines 113-117.  A company name has the palette
    slot of its rank among the distinct names in first-seen order, taken
    modulo the size of the palette; every name of the sheet has a slot,
    so the fallback colour of line 177 is never used; and on a sheet with
    no more distinct names than the palette has slots, different names
    have different slots. *)
Theorem company_colors_by_rank :
  ∀ (colormap_N : nat) (companies : list CompanyRow),
    (∀ name slot,
       dict_get name (company_colors colormap_N companies) = Some slot
       ↔ ∃ i, unique (map Company_Name companies) !! i = Some name
              ∧ slot = i mod colormap_N)
    ∧ (∀ row, row ∈ companies →
         is_Some (dict_get (Company_Name row)
                    (company_colors colormap_N companies)))
    ∧ (length (unique (map Company_Name companies)) ≤ colormap_N →
       ∀ n m slot,
         dict_get n (company_colors colormap_N companies) = Some slot →
         dict_get m (company_colors colormap_N companies) = Some slot →
         n = m).
Proof.
  intros N companies.
  assert (∀ name slot,
            dict_get name (company_colors N companies) = Some slot
            ↔ ∃ i, unique (map Company_Name companies) !! i = Some name
                   ∧ slot = i mod N) as Hrank.
  { intros name slot. unfold company_colors.
    apply (ranked_get (λ i, i mod N)). apply NoDup_unique. }
  split_and!; [done | |].
  - intros row Hrow.
    assert (Company_Name row ∈ unique (map Company_Name companies)) as Hin.
    { apply unique_elem, list_elem_of_fmap. by exists row. }
    apply list_elem_of_lookup in Hin as [i Hi].
    exists (i mod N). apply Hrank. eauto.
  - intros Hsmall n m slot (i & Hi & ->)%Hrank (j & Hj & Heq)%Hrank.
    pose proof (lookup_lt_Some _ _ _ Hi) as Hilt.
    pose proof (lookup_lt_Some _ _ _ Hj) as Hjlt.
    rewrite !Nat.mod_small in Heq by lia. subst j. congruence.
Qed.

(** ** Projects under loading *)

#[local] Instance keeps_coordinates_preorder : PreOrder keeps_coordinates.
Proof.
  split; unfold keeps_coordinates.
  - intros st Hwf. split; [done|]. intros k s' Hget. by exists s'.
  - intros st1 st2 st3 H12 H23 Hwf1.
    destruct (H12 Hwf1) as [Hwf2 H2]. destruct (H23 Hwf2) as [Hwf3 H3].
    split; [done|]. intros k s3 Hget3.
    destruct (H3 k s3 Hget3) as (s2 & Hget2 & Hlat & Hlon).
    destruct (H2 k s2 Hget2) as (s1 & Hget1 & Hlat' & Hlon').
    exists s1. split_and!; [done | congruence..].
Qed.

Lemma set_visible_keeps_coordinates name b st :
  keeps_coordinates st (set_project_sites (set_visible name b) st).
Proof.
  intros Hwf. cbn. split.
  - unfold dict_wf, set_visible. by rewrite dict_keys_update.
  - intros k s'. unfold set_visible. rewrite dict_get_update.
    case_bool_decide; [|by eauto].
    destruct (dict_get k (project_sites st)) as [s|]; [|done].
    intros [= <-]. by exists s.
Qed.

Lemma manage_keeps_coordinates w st :
  keeps_coordinates st (set_project_sites (manage_project_sites w) st).
Proof.
  intros Hwf. cbn. split; [by apply manage_project_sites_wf|].
  intros k s'. unfold manage_project_sites.
  set (g := λ item : string * Site,
              checkbox w ("proj_" +:+ item.1) (visible item.2)).
  rewrite fold_dict_del_get
    by (unfold dict_wf; by rewrite (fold_set_visible_keys g)).
  case_bool_decide; [done|].
  rewrite (fold_set_visible_get g) by done.
  destruct (dict_get k (project_sites st)) as [s|]; [|done].
  intros [= <-]. by exists s.
Qed.

Lemma after_seeding_keeps_coordinates w companies :
  preserves keeps_coordinates
    (let* selected := radius_block w companies in toggles w companies).
Proof.
  apply (after_seeding_preserves keeps_coordinates).
  - by intros c b st Hwf; split; [|eauto].
  - intros name b st. apply set_visible_keeps_coordinates.
  - by intros r st Hwf; split; [|eauto].
  - intros w' st Hwf. rewrite global_toggle_sites. split; [done | eauto].
  - by intros w' companies' st Hwf; split; [|eauto].
Qed.

Lemma load_data_state_cases w st :
  state_of (load_data w st) = st
  ∨ ∃ companies projects,
      state_of (load_data w st)
      = state_of ((let* selected := radius_block w companies in
                   toggles w companies) (seeded w companies projects st)).
Proof.
  unfold load_data. destruct (uploaded_file w) as [f|]; [|by left].
  rewrite try_except_state.
  destruct f as [|[c|] [p|]]; try by left.
  destruct (has_columns required_cols (columns c)) eqn:Hc.
  - destruct (has_columns required_project_cols (columns p)) eqn:Hp.
    + right. exists (rows c), (rows p).
      by rewrite load_body_valid, process_sheets_run.
    + left. unfold load_body. cbn [ExcelFile]. rewrite run_ret_then.
      cbn [fst snd read_excel]. rewrite !run_ret_then. by rewrite Hc, Hp.
  - left. unfold load_body. cbn [ExcelFile]. rewrite run_ret_then.
    cbn [fst snd read_excel]. rewrite !run_ret_then. by rewrite Hc.
Qed.

(** X19: once the session holds a project, loading adds none, whatever
    the sheet says, and it never moves one: every project found after
    the load block was there before it, with the same latitude and
    longitude.  Projects come into a session that has some only through
    "Add Project". *)
Theorem loading_never_adds_or_moves_projects :
  ∀ (w : Widgets) (st : SessionState),
    project_sites st ≠ [] →
    dict_wf (project_sites st) →
    ∀ k s', dict_get k (project_sites (state_of (load_data w st))) = Some s' →
            ∃ s, dict_get k (project_sites st) = Some s
                 ∧ lat s' = lat s ∧ lon s' = lon s.
Proof.
  intros w st Hsome Hwf.
  destruct (load_data_state_cases w st) as [->|(companies & projects & ->)];
    [by eauto|].
  assert (keeps_coordinates st (seeded w companies projects st)) as Hseeded.
  { unfold seeded. intros _.
    assert (set_project_sites (seed_projects projects) st = st) as ->.
    { unfold set_project_sites, seed_projects. destruct st as [vis sites all r].
      cbn in *. by destruct sites. }
    rewrite seed_companies_sites. by apply manage_keeps_coordinates. }
  pose proof (after_seeding_keeps_coordinates w companies
                (seeded w companies projects st)) as Hafter.
  assert (keeps_coordinates st
            (state_of ((let* selected := radius_block w companies in
                        toggles w companies) (seeded w companies projects st))))
    as Hall by (etrans; eassumption).
  by apply Hall.
Qed.

(** ** The first load *)

Lemma idle_rerun_only_seeds w st companies_df projects_df :
  uploaded_file w = Some (Workbook (Some companies_df) (Some projects_df)) →
  has_columns required_cols (columns companies_df) = true →
  has_columns required_project_cols (columns projects_df) = true →
  (∀ label, button w label = false) →
  (∀ key value, checkbox w key value = value) →
  mode w = AllCompaniesWithRadius ∨ radius_manual w = last_radius st →
  dict_wf (project_sites st) →
  state_of (rerun w st)
  = seed_companies (rows companies_df)
      (set_project_sites (seed_projects (rows projects_df)) st).
Proof.
  intros Hfile Hc Hp Hbutton Hcheckbox Hrest Hwf.
  rewrite rerun_state.
  assert (state_of (add_project w st) = st) as ->.
  { unfold add_project. by rewrite Hbutton. }
  unfold load_data. rewrite Hfile.
  rewrite try_except_state, load_body_valid, process_sheets_run by done.
  unfold seeded.
  set (st1 := set_project_sites (seed_projects (rows projects_df)) st).
  assert (set_project_sites (manage_project_sites w) st1 = st1) as ->.
  { unfold set_project_sites.
    rewrite manage_project_sites_idle; [by destruct st1 | | done | done].
    subst st1. cbn. by apply seed_projects_wf. }
  set (st2 := seed_companies (rows companies_df) st1).
  rewrite run_bind.
  assert (state_of (radius_block w (rows companies_df) st2) = st2) as Hidle.
  { apply radius_block_idle. destruct Hrest as [Hmode|Hsame]; [left | right].
    - unfold selected_project. by rewrite Hmode.
    - subst st2 st1. by rewrite seed_companies_last_radius. }
  destruct (radius_block w (rows companies_df) st2) as [[st3 out3] [selected|e]];
    cbn in Hidle; subst st3; [|done].
  unfold toggles. rewrite run_modify_then. cbn.
  assert (global_toggle w st2 = st2) as ->.
  { unfold global_toggle. by rewrite Hbutton. }
  unfold set_competitor_visibility.
  rewrite company_toggles_idle; [by destruct st2 | done | done |].
  intros row Hrow. subst st2. rewrite seed_companies_lookup.
  rewrite bool_decide_eq_true_2; [eauto|].
  apply list_elem_of_fmap. by exists row.
Qed.

(** X20: the first load of a fresh session in "All Companies with
    Radius" mode, with nothing pressed and every check box returning the
    value it was offered, shows everything: every location of the
    Companies sheet is flagged visible, every project of the Projects
    sheet is there and visible, [all_competitors] is the set of the
    locations of the sheet, and no radius has been applied yet. *)
Theorem first_load_shows_everything :
  ∀ (w : Widgets)
    (companies_df : DataFrame CompanyRow) (projects_df : DataFrame ProjectRow),
    uploaded_file w = Some (Workbook (Some companies_df) (Some projects_df)) →
    has_columns required_cols (columns companies_df) = true →
    has_columns required_project_cols (columns projects_df) = true →
    (∀ label, button w label = false) →
    (∀ key value, checkbox w key value = value) →
    mode w = AllCompaniesWithRadius →
    let st' := state_of (rerun w initial_state) in
    (∀ row, row ∈ rows companies_df →
       competitor_visibility st' !! Company_Location row = Some true)
    ∧ (∀ row, row ∈ rows projects_df →
         ∃ s, dict_get (Project_Name row) (project_sites st') = Some s
              ∧ visible s = true)
    ∧ (∀ c, c ∈ all_competitors st'
            ↔ c ∈ map Company_Location (rows companies_df))
    ∧ last_radius st' = (-1)%R.
Proof.
  intros w companies_df projects_df Hfile Hc Hp Hbutton Hcheckbox Hmode.
  cbv zeta.
  rewrite (idle_rerun_only_seeds w initial_state companies_df projects_df)
    by (done || (by left) || apply initial_state_wf).
  split_and!.
  - intros row Hrow. rewrite seed_companies_lookup.
    rewrite bool_decide_eq_true_2; [done|].
    apply list_elem_of_fmap. by exists row.
  - intros row Hrow. rewrite seed_companies_sites. cbn.
    destruct (seed_fold_present (rows projects_df) [] row Hrow)
      as (row' & _ & _ & Hget).
    eexists. split; [exact Hget | done].
  - intros c. rewrite seed_companies_all. cbn.
    split; [intros [?%elem_of_empty|?]; done | by right].
  - by rewrite seed_companies_last_radius.
Qed.

(** * The further properties at concrete inputs *)

Lemma unreadable_upload_leaves_state_witness :
  load_data (example_widgets None 10) (state_with_P true {["A" := false]} 10)
  = (state_with_P true {["A" := false]} 10, [InfoPleaseUpload], Returns tt)
  ∧ load_data (example_widgets (Some NotAWorkbook) 10) initial_state
    = (initial_state, [ErrorLoadingFile BadFile], Returns tt)
  ∧ load_data (example_widgets (Some (Workbook None (Some projects_sheet))) 10)
      initial_state
    = (initial_state, [ErrorLoadingFile (WorksheetNotFound "Companies")],
       Returns tt)
  ∧ load_data
      (example_widgets
         (Some (Workbook (Some (companies_sheet [] [row_A])) None)) 10)
      initial_state
    = (initial_state, [ErrorLoadingFile (WorksheetNotFound "Projects")],
       Returns tt).
Proof.
  split_and!.
  - apply (proj1 (unreadable_upload_leaves_state (example_widgets None 10) _)).
    reflexivity.
  - apply (proj1 (proj2 (unreadable_upload_leaves_state
                           (example_widgets (Some NotAWorkbook) 10) _))).
    reflexivity.
  - apply (proj1 (proj2 (proj2 (unreadable_upload_leaves_state
             (example_widgets (Some (Workbook None (Some projects_sheet))) 10) _)))
             (Some projects_sheet)).
    reflexivity.
  - apply (proj2 (proj2 (proj2 (unreadable_upload_leaves_state
             (example_widgets
                (Some (Workbook (Some (companies_sheet [] [row_A])) None)) 10) _)))
             (companies_sheet [] [row_A])).
    reflexivity.
Defined.

Lemma header_check_membership_only_witness :
  has_columns required_cols
    ["Notes"; "Longitude"; "Latitude"; "Company Name"; "Company Location"] = true.
Proof.
  apply (proj2 (header_check_membership_only required_cols required_cols
                  ["Notes"; "Longitude"; "Latitude"; "Company Name";
                   "Company Location"])).
  - intros col Hcol. apply list_elem_of_In in Hcol. apply list_elem_of_In.
    cbn in *. tauto.
  - reflexivity.
Defined.

Lemma complete_headers_no_validation_error_witness :
  ErrorProjectsColumns
    ∈ shown_of (load_data
                  (example_widgets
                     (Some (Workbook (Some (companies_sheet required_cols [row_A]))
                              (Some {| columns := ["Project Name"];
                                       rows := [project_P] |}))) 10)
                  initial_state).
Proof.
  apply (proj2 (proj2 (complete_headers_no_validation_error
           (example_widgets
              (Some (Workbook (Some (companies_sheet required_cols [row_A]))
                       (Some {| columns := ["Project Name"];
                                rows := [project_P] |}))) 10)
           initial_state
           (companies_sheet required_cols [row_A])
           {| columns := ["Project Name"]; rows := [project_P] |}
           eq_refl))).
  split; reflexivity.
Defined.

Lemma manage_project_sites_effect_witness :
  dict_get "P"
    (manage_project_sites (pressing "remove_P" (example_widgets None 10))
       [("P", site_P true); ("Q", site_P false)]) = None
  ∧ dict_keys
      (manage_project_sites (pressing "remove_P" (example_widgets None 10))
         [("P", site_P true); ("Q", site_P false)]) = ["Q"].
Proof.
  assert (dict_wf [("P", site_P true); ("Q", site_P false)]) as Hwf.
  { unfold dict_wf. cbn. apply NoDup_cons. split; [not_in_list|].
    apply NoDup_singleton. }
  destruct (manage_project_sites_effect
              (pressing "remove_P" (example_widgets None 10))
              [("P", site_P true); ("Q", site_P false)] Hwf) as [Hget Hkeys].
  split.
  - apply (Hget "P" (site_P true)). apply list_elem_of_here.
  - exact Hkeys.
Defined.

Lemma seed_companies_keeps_flags_witness :
  competitor_visibility
    (seed_companies [row_A; row_B] (state_with_P true {["A" := false]} 10)) !! "A"
  = Some false.
Proof.
  apply (proj1 (seed_companies_keeps_flags [row_A; row_B]
                  (state_with_P true {["A" := false]} 10)) "A" false).
  reflexivity.
Defined.

Lemma competitors_stay_flagged_witness :
  competitors_flagged (state_of (rerun text_widgets initial_state)).
Proof.
  apply (proj2 (proj2 (competitors_stay_flagged text_widgets initial_state))).
  apply (proj1 (competitors_stay_flagged text_widgets initial_state)).
Defined.

Lemma example_recompute :
  radius_block (example_widgets None 10) [row_A; row_B; row_C]
    (state_with_P true ∅ (-1))
  = ({| competitor_visibility :=
          flag_companies 10
            (map (λ row, (row, distance_from 0 0 (c_Latitude row) (c_Longitude row)))
               [row_A; row_B; row_C]) ∅;
        project_sites :=
          flag_projects 10 0 0 [("P", site_P true)] [("P", site_P true)];
        all_competitors := dom (∅ : gmap string bool);
        last_radius := 10 |}, [], Returns (Some "P")).
Proof.
  apply (radius_block_recomputes (example_widgets None 10) [row_A; row_B; row_C]
           (state_with_P true ∅ (-1)) "P" (site_P true) [] 0 0);
    try reflexivity.
  - cbn. lra.
  - repeat constructor; by eexists.
  - repeat constructor; by eexists.
Qed.

Lemma radius_block_writes_only_on_trigger_witness :
  mode (example_widgets None 10) = CompaniesWithinRadiusOfProject
  ∧ visible_projects (project_sites (state_with_P true ∅ (-1))) ≠ []
  ∧ radius_manual (example_widgets None 10) ≠ last_radius (state_with_P true ∅ (-1)).
Proof.
  apply (radius_block_writes_only_on_trigger (example_widgets None 10)
           [row_A; row_B; row_C] (state_with_P true ∅ (-1))).
  rewrite example_recompute. cbn. intros Heq.
  apply (f_equal last_radius) in Heq. cbn in Heq. lra.
Defined.

Lemma radius_block_settles_witness :
  state_of (radius_block (example_widgets None 10) [row_A; row_B; row_C]
              (state_of (radius_block (example_widgets None 10)
                           [row_A; row_B; row_C] (state_with_P true ∅ (-1)))))
  = state_of (radius_block (example_widgets None 10) [row_A; row_B; row_C]
                (state_with_P true ∅ (-1))).
Proof.
  apply (radius_block_settles (example_widgets None 10) [row_A; row_B; row_C]
           (state_with_P true ∅ (-1)) (Some "P")).
  by rewrite example_recompute.
Defined.

Lemma reference_project_stays_visible_witness :
  dict_get "P"
    (project_sites
       (state_of (radius_block (example_widgets None 10) [row_A; row_B; row_C]
                    (state_with_P true ∅ (-1)))))
  = Some {| lat := CNum 0; lon := CNum 0; visible := true |}.
Proof.
  apply (reference_project_stays_visible (example_widgets None 10)
           [row_A; row_B; row_C] (state_with_P true ∅ (-1))
           "P" (site_P true) [] 0 0); try reflexivity.
  - cbn. lra.
  - cbn. lra.
  - apply NoDup_singleton.
  - repeat constructor; by eexists.
  - repeat constructor; by eexists.
Defined.

Lemma text_coordinate_stops_before_writing_witness :
  ∃ e, radius_block (example_widgets None 10) [row_A; row_text]
         (state_with_P true {["A" := false]} (-1))
       = (state_with_P true {["A" := false]} (-1), [], Raises e).
Proof.
  apply (text_coordinate_stops_before_writing (example_widgets None 10)
           [row_A; row_text] (state_with_P true {["A" := false]} (-1))
           ("P", site_P true) row_text).
  - reflexivity.
  - apply list_elem_of_further, list_elem_of_here.
  - left. by exists "north".
Defined.

Lemma failed_recompute_is_retried_witness :
  last_radius
    (state_of (radius_block (example_widgets None 10) [row_text]
                 (state_with_P true ∅ (-1))))
  = (-1)%R.
Proof.
  apply (failed_recompute_is_retried (example_widgets None 10) [row_text]
           (state_with_P true ∅ (-1)) TypeError).
  vm_compute. reflexivity.
Defined.

Lemma rows_drawn_after_recompute_witness :
  row_A ∈ visible_df [row_A; row_B; row_C]
            (competitor_visibility
               (state_of (radius_block (example_widgets None 10)
                            [row_A; row_B; row_C] (state_with_P true ∅ (-1))))).
Proof.
  apply (proj1 (rows_drawn_after_recompute (example_widgets None 10)
                  [row_A; row_B; row_C] (state_with_P true ∅ (-1))
                  "P" (site_P true) [] 0 0
                  eq_refl eq_refl eq_refl eq_refl
                  ltac:(cbn; lra)
                  ltac:(cbn; repeat (apply NoDup_cons; split; [not_in_list|]);
                        apply NoDup_nil_2)
                  ltac:(repeat constructor; by eexists)
                  ltac:(repeat constructor; by eexists))
           row_A 0%R 0%R eq_refl eq_refl).
  split; [apply list_elem_of_here | apply haversine_origin].
Defined.

Lemma bulk_toggle_flips_aggregate_witness :
  global_all_on
    (global_toggle (pressing "Select All" (example_widgets None 10))
       (state_with_P true {["A" := true; "B" := false]} 10))
  = true
  ∧ all_checked [row_A; row_B]
      (group_toggle (pressing "Deselect All (Acme)" (example_widgets None 10))
         "Acme" [row_A; row_B] {["A" := true; "B" := true]})
    = false.
Proof.
  split.
  - etrans.
    + apply (proj1 (bulk_toggle_flips_aggregate
                      (pressing "Select All" (example_widgets None 10))
                      (state_with_P true {["A" := true; "B" := false]} 10)
                      "Acme" [] ∅)).
      * vm_compute. reflexivity.
      * intros Hempty. apply (f_equal elements) in Hempty.
        vm_compute in Hempty. discriminate Hempty.
    + vm_compute. reflexivity.
  - etrans.
    + apply (proj2 (proj2 (bulk_toggle_flips_aggregate
                      (pressing "Deselect All (Acme)" (example_widgets None 10))
                      initial_state
                      "Acme" [row_A; row_B] {["A" := true; "B" := true]}))).
      * vm_compute. reflexivity.
      * discriminate.
    + vm_compute. reflexivity.
Defined.

Lemma checkbox_has_last_word_witness :
  group_block (pressing "Select All (Acme)" (example_widgets None 10))
    {["A" := true; "B" := false]} ("Acme", [row_A; row_B]) !! "B"
  = Some true.
Proof.
  apply (proj1 (checkbox_has_last_word
                  (pressing "Select All (Acme)" (example_widgets None 10))
                  "Acme" [row_A; row_B] {["A" := true; "B" := false]}
                  ltac:(cbn; repeat (apply NoDup_cons; split; [not_in_list|]);
                        apply NoDup_nil_2))
           row_B).
  apply list_elem_of_further, list_elem_of_here.
Defined.

Lemma idle_rerun_changes_nothing_witness :
  state_of (rerun (example_widgets (Some (example_workbook required_cols [row_A])) 10)
              (state_with_P true {["A" := false]} 10))
  = state_with_P true {["A" := false]} 10.
Proof.
  apply (idle_rerun_changes_nothing
           (example_widgets (Some (example_workbook required_cols [row_A])) 10)
           (state_with_P true {["A" := false]} 10)
           (companies_sheet required_cols [row_A]) projects_sheet);
    try reflexivity.
  - by right.
  - discriminate.
  - apply NoDup_singleton.
  - intros row ->%list_elem_of_singleton. split.
    + apply elem_of_dom. by eexists.
    + by eexists.
Defined.

Lemma company_colors_by_rank_witness :
  is_Some (dict_get "Zenith" (company_colors 20 [row_A; row_B; row_C]))
  ∧ "Acme" = "Acme".
Proof.
  split.
  - apply (proj1 (proj2 (company_colors_by_rank 20 [row_A; row_B; row_C])) row_C).
    apply list_elem_of_further, list_elem_of_further, list_elem_of_here.
  - apply (proj2 (proj2 (company_colors_by_rank 20 [row_A; row_B; row_C]))
             ltac:(vm_compute; lia) "Acme" "Acme" 0);
      reflexivity.
Defined.

Lemma loading_never_adds_or_moves_projects_witness :
  ∃ s, dict_get "P" (project_sites (state_with_P false ∅ 10)) = Some s
       ∧ lat (site_P false) = lat s ∧ lon (site_P false) = lon s.
Proof.
  apply (loading_never_adds_or_moves_projects
           (example_widgets (Some (example_workbook required_cols [row_A])) 10)
           (state_with_P false ∅ 10)
           ltac:(discriminate) ltac:(apply NoDup_singleton)
           "P" (site_P false)).
  vm_compute. reflexivity.
Defined.

Lemma first_load_shows_everything_witness :
  competitor_visibility
    (state_of (rerun (in_mode AllCompaniesWithRadius
                        (example_widgets
                           (Some (example_workbook required_cols
                                    [row_A; row_B; row_C])) 10))
                 initial_state)) !! "B"
  = Some true.
Proof.
  apply (proj1 (first_load_shows_everything
                  (in_mode AllCompaniesWithRadius
                     (example_widgets
                        (Some (example_workbook required_cols
                                 [row_A; row_B; row_C])) 10))
                  (companies_sheet required_cols [row_A; row_B; row_C])
                  projects_sheet
                  eq_refl eq_refl eq_refl
                  (λ _, eq_refl) (λ _ _, eq_refl) eq_refl)
           row_B).
  apply list_elem_of_further, list_elem_of_here.
Defined.
